(** * Fixed-point sine and cosine (fixed_sincos.c)

    A shallow embedding of [clamp_overflow], [sine] and [cosine], with the
    C integer types written out over [Z]:

    - [uint64_t] arithmetic is arithmetic modulo [2^64];
    - [int64_t] values are the integers of [[-2^63, 2^63)]; a conversion to
      [int64_t] wraps, [>>] on a signed value is the arithmetic shift
      ([Z.shiftr]) and [~] is [Z.lnot];
    - the two saturation constants of [clamp_overflow] are computed in
      [int] (32 bits), as the source writes them;
    - [assert] is enabled: a failed assertion stops the call. *)

From Stdlib Require Import ZArith Bool Lia QArith.
From Stdlib Require Uint63.

Local Open Scope Z_scope.

(** ** Outcomes of a C computation *)

(** A call returns a value, stops at a failed [assert], or leaves the
    language's defined behaviour (a shift count outside the operand's
    width, an [int] result that does not fit in 32 bits). *)
Inductive outcome : Type :=
| Ret (v : Z)
| Abort
| Undefined.

Definition bind (m : outcome) (k : Z -> outcome) : outcome :=
  match m with
  | Ret v => k v
  | Abort => Abort
  | Undefined => Undefined
  end.

Notation "x <- m ;; k" := (bind m (fun x => k))
  (at level 61, m at next level, right associativity).

(** ** Machine integers *)

Module CInt.

  (** Conversion to [uint64_t]. *)
Definition u64 (z : Z) : Z := z mod 2 ^ 64.

  (** Conversion to [int64_t] (two's complement wrap). *)
Definition s64 (z : Z) : Z := (z + 2 ^ 63) mod 2 ^ 64 - 2 ^ 63.

Definition in_int (z : Z) : bool := (- 2 ^ 31 <=? z) && (z <? 2 ^ 31).

  (** [a << k] on [int].  The count has to lie in [[0, 31]] and the result
      has to fit; a negative left operand is shifted as its two's
      complement pattern (the behaviour of every common compiler). *)
Definition shl_int (a k : Z) : outcome :=
    if (0 <=? k) && (k <? 32) && in_int (Z.shiftl a k)
    then Ret (Z.shiftl a k) else Undefined.

  (** [a - b] on [int]. *)
Definition sub_int (a b : Z) : outcome :=
    if in_int (a - b) then Ret (a - b) else Undefined.

  (** [a >> k] on [int64_t]: arithmetic shift, count in [[0, 63]]. *)
Definition shr_s64 (a k : Z) : outcome :=
    if (0 <=? k) && (k <? 64) then Ret (Z.shiftr a k) else Undefined.

  (** Conversion of an integer to [bool]. *)
Definition to_bool (z : Z) : bool := negb (z =? 0).

  (** [uint64_t] operators. *)
Definition umul (a b : Z) : Z := u64 (a * b).
Definition uadd (a b : Z) : Z := u64 (a + b).
Definition usub (a b : Z) : Z := u64 (a - b).
Definition ushr (a k : Z) : Z := Z.shiftr a k.
Definition ushl (a k : Z) : Z := u64 (Z.shiftl a k).

  (** [~a + 1] on [int64_t]. *)
Definition neg_s64 (a : Z) : Z := s64 (Z.lnot a + 1).

End CInt.

Import CInt.

(** ** clamp_overflow *)

(** [assert((high == 0x0000000000000000LL) || (high == 0xFFFFFFFFFFFFFFFFLL))]:
    the second literal does not fit [long long], so it is unsigned and
    [high] is converted to [uint64_t] for the comparison. *)
Definition sanity_check (high : Z) : bool :=
  (high =? 0) || (u64 high =? 0xFFFFFFFFFFFFFFFF).

Definition clamp_overflow (value width : Z) : outcome :=
  h0 <- shr_s64 value (width + 0) ;;
  h1 <- shr_s64 value (width - 1) ;;
  let high0 := to_bool (Z.land h0 0x01) in
  let high1 := to_bool (Z.land h1 0x01) in
  value' <- (if xorb high0 high1
             then if high0
                  then shl_int (-1) (width - 1)
                  else (t <- shl_int 1 (width - 1) ;; sub_int t 1)
             else Ret value) ;;
  high <- shr_s64 value' (width - 1) ;;
  if sanity_check high then Ret value' else Abort.

(** ** fixed_to_float *)

(** [(double)value / ((int64_t)0x1 << scale)].  For the 18-bit results and
    the scales used here both operands and the quotient are exact in
    binary64, so the rational quotient is the value computed. *)
Definition fixed_to_float (value scale : Z) : Q :=
  (inject_Z value / inject_Z (Z.shiftl 1 scale))%Q.

(** ** float_to_fixed *)

(** [(int64_t)((value*((int64_t)0x1 << scale)) + 0.5)]: the conversion to
    [int64_t] truncates toward zero.  The rational computation is the
    binary64 one as long as the product and the sum are exact, which is
    the case for the values [fixed_to_float] produces from an integer
    below [2^52] in magnitude. *)
Definition float_to_fixed (value : Q) (scale : Z) : Z :=
  let y := (value * inject_Z (Z.shiftl 1 scale) + (1 # 2))%Q in
  Z.quot (Qnum y) (Zpos (Qden y)).

(** ** sine *)

Module Sine.
Definition k1 : Z := 205887.
Definition k3 : Z := 169336.
Definition k5 : Z := 167014.
Definition k7 : Z := 150000.
End Sine.

(** [sine] and [cosine] decode their argument in the same way (lines
    81-86 and 142-147): bits 19 and 18 of [(uint64_t)value], and its low
    18 bits, reflected when bit 18 is set. *)
Definition get_high0 (value : Z) : bool :=
  to_bool (Z.land (ushr (u64 value) 19) 0x01).
Definition get_high1 (value : Z) : bool :=
  to_bool (Z.land (ushr (u64 value) 18) 0x01).

(** The argument [x1] after the [if (high1)] reflection. *)
Definition fold_x1 (value : Z) : Z :=
  let x1 := Z.land (u64 value) 0x3ffff in
  if get_high1 value
  then Z.land (usub (ushl 0x1 18) x1) 0x3ffff
  else x1.

(** Lines 91-104 of [sine]: the powers, the four terms, their alternating
    sum in [uint64_t] converted to [int64_t], and [sum >> 1]. *)
Definition sine_poly (x1 : Z) : Z :=
  let x2 := ushr (umul x1 x1) 18 in
  let x3 := ushr (umul x2 x1) 18 in
  let x5 := ushr (umul x2 x3) 18 in
  let x7 := ushr (umul x2 x5) 18 in
  let kx1 := ushr (umul Sine.k1 x1) 17 in
  let kx3 := ushr (umul Sine.k3 x3) 18 in
  let kx5 := ushr (umul Sine.k5 x5) 21 in
  let kx7 := ushr (umul Sine.k7 x7) 25 in
  let sum := s64 (usub (uadd (usub kx1 kx3) kx5) kx7) in
  Z.shiftr sum 1.

(** Lines 81-112 of [sine]: the value handed to [clamp_overflow], after
    the [one] override ([1 << 17]) and the negation [~sum + 1]. *)
Definition sine_sum (value : Z) : Z :=
  let high0 := get_high0 value in
  let high1 := get_high1 value in
  let x1 := fold_x1 value in
  let negative := high0 in
  let one := (x1 =? 0) && high1 in
  let sum := sine_poly x1 in
  let sum := if one then Z.shiftl 1 17 else sum in
  let sum := if negative then neg_s64 sum else sum in
  sum.

Definition sine (value : Z) : outcome :=
  clamp_overflow (sine_sum value) 18.

(** ** cosine *)

Module Cosine.
Definition k2 : Z := 161704.
Definition k4 : Z := 132996.
Definition k6 : Z := 175016.
Definition k8 : Z := 241700.
End Cosine.

(** Lines 152-165 of [cosine]; the leading term is [(int64_t)1 << 18]. *)
Definition cosine_poly (x1 : Z) : Z :=
  let x2 := ushr (umul x1 x1) 18 in
  let x4 := ushr (umul x2 x2) 18 in
  let x6 := ushr (umul x4 x2) 18 in
  let x8 := ushr (umul x4 x4) 18 in
  let kx2 := ushr (umul Cosine.k2 x2) 17 in
  let kx4 := ushr (umul Cosine.k4 x4) 19 in
  let kx6 := ushr (umul Cosine.k6 x6) 23 in
  let kx8 := ushr (umul Cosine.k8 x8) 28 in
  let sum :=
    s64 (uadd (usub (uadd (usub (u64 (Z.shiftl 1 18)) kx2) kx4) kx6) kx8) in
  Z.shiftr sum 1.

(** Lines 142-173 of [cosine]: the value handed to [clamp_overflow],
    after the [zero] override and the negation. *)
Definition cosine_sum (value : Z) : Z :=
  let high0 := get_high0 value in
  let high1 := get_high1 value in
  let x1 := fold_x1 value in
  let negative := xorb high0 high1 in
  let zero := (x1 =? 0) && high1 in
  let sum := cosine_poly x1 in
  let sum := if zero then 0 else sum in
  let sum := if negative then neg_s64 sum else sum in
  sum.

Definition cosine (value : Z) : outcome :=
  clamp_overflow (cosine_sum value) 18.

(** ** Properties stated by the specification *)

(** Bits above position [w] repeat bit [w]. *)
Definition sign_extended (value w : Z) : Prop :=
  forall i, w < i -> Z.testbit value i = Z.testbit value w.

(** The range of [int64_t]. *)
Definition is_int64 (z : Z) : Prop := - 2 ^ 63 <= z < 2 ^ 63.

(** ** Auxiliary definitions *)

(** The saturation value chosen when the two inspected bits differ. *)
Definition saturated (high0 : bool) (width : Z) : Z :=
  if high0 then - 2 ^ (width - 1) else 2 ^ (width - 1) - 1.

(** Saturation to the signed 18-bit range. *)
Definition saturate18 (s : Z) : Z :=
  if s <? -131072 then -131072 else if 131071 <? s then 131071 else s.

(** The sum of [sine] before the sign is applied. *)
Definition sine_base (value : Z) : Z :=
  if (fold_x1 value =? 0) && get_high1 value
  then Z.shiftl 1 17 else sine_poly (fold_x1 value).

(** The sum of [cosine] before the sign is applied. *)
Definition cosine_base (value : Z) : Z :=
  if (fold_x1 value =? 0) && get_high1 value
  then 0 else cosine_poly (fold_x1 value).

(** ** Exhaustive evaluation of the polynomials

    The two polynomials on 63-bit machine integers, used to check every
    folded argument [0 .. 2^18 - 1].  No intermediate value reaches
    [2^63]; the alternating sums carry an offset of [2^20] so that they
    stay non-negative, and the results are the polynomials plus [2^19]
    (see [FastSpec.sine_poly63_spec] and [FastSpec.cosine_poly63_spec]). *)

Module Fast.
Import Uint63.
Local Open Scope uint63_scope.

Definition sine_poly63 (x1 : int) : int :=
  let x2 := (x1 * x1) >> 18 in
  let x3 := (x2 * x1) >> 18 in
  let x5 := (x2 * x3) >> 18 in
  let x7 := (x2 * x5) >> 18 in
  let kx1 := (205887 * x1) >> 17 in
  let kx3 := (169336 * x3) >> 18 in
  let kx5 := (167014 * x5) >> 21 in
  let kx7 := (150000 * x7) >> 25 in
  (kx1 + kx5 + 1048576 - kx3 - kx7) >> 1.

Definition cosine_poly63 (x1 : int) : int :=
  let x2 := (x1 * x1) >> 18 in
  let x4 := (x2 * x2) >> 18 in
  let x6 := (x4 * x2) >> 18 in
  let x8 := (x4 * x4) >> 18 in
  let kx2 := (161704 * x2) >> 17 in
  let kx4 := (132996 * x4) >> 19 in
  let kx6 := (175016 * x6) >> 23 in
  let kx8 := (241700 * x8) >> 28 in
  (262144 + kx4 + kx8 + 1048576 - kx2 - kx6) >> 1.

(** [min a 131071]: the effect of the 18-bit clamp on a sum of
    [[0, 2^17]]. *)
Definition sat63 (a : int) : int := if 131072 <=? a then 131071 else a.

(** [a^2 + b^2] within [2^19] of [2^34]. *)
Definition unit63 (a b : int) : bool :=
  let q := a * a + b * b in
  (17179344896 <=? q) && (q <=? 17180393472).

(** Everything checked at one folded argument [x]. *)
Definition check63 (x : int) : bool :=
  let s := sine_poly63 x in
  let c := cosine_poly63 x in
  let y := if 262143 <=? x then x else x + 1 in
  let m := if x <=? 0 then x else 262144 - x in
  let sy := sine_poly63 y in
  let cy := cosine_poly63 y in
  let sm := sine_poly63 m in
  let a := s - 524288 in
  let b := c - 524288 in
  (524288 <=? s) && (s <=? 655360) && (524289 <=? c) && (c <=? 655360)
  && (s <=? sy + 1) && (sy <=? s + 2)
  && (c <=? cy + 2) && (cy <=? c + 1)
  && ((x <=? 0) || ((sm <=? c + 2) && (c <=? sm + 2)))
  && unit63 a b && unit63 (sat63 a) b
  && unit63 a (sat63 b) && unit63 (sat63 a) (sat63 b).

End Fast.

(** [f] holds on [base .. base + 2^d - 1]. *)
Fixpoint all_from (d : nat) (base : Z) (f : Z -> bool) : bool :=
  match d with
  | O => f base
  | S d' =>
      all_from d' base f && all_from d' (base + Z.shiftl 1 (Z.of_nat d')) f
  end.

(** What [Fast.check63] establishes at [x]. *)
Definition poly_facts (x : Z) : Prop :=
  (0 <= sine_poly x <= 131072) /\
  (1 <= cosine_poly x <= 131072) /\
  (x < 262143 ->
   -1 <= sine_poly (x + 1) - sine_poly x <= 2 /\
   -2 <= cosine_poly (x + 1) - cosine_poly x <= 1) /\
  (0 < x -> -2 <= sine_poly (262144 - x) - cosine_poly x <= 2) /\
  (forall a b,
      a = sine_poly x \/ a = Z.min (sine_poly x) 131071 ->
      b = cosine_poly x \/ b = Z.min (cosine_poly x) 131071 ->
      -524288 <= a * a + b * b - 2 ^ 34 <= 524288).

(** ** The sums by quadrant

    The argument [q * 2^18 + r] with [q] in [0..3]: what [sine] and
    [cosine] hand to the clamp, in terms of the two polynomials. *)

Definition sine_quadrant (q r : Z) : Z :=
  match q with
  | 0 => sine_poly r
  | 1 => if r =? 0 then 131072 else sine_poly (262144 - r)
  | 2 => - sine_poly r
  | _ => if r =? 0 then -131072 else - sine_poly (262144 - r)
  end.

Definition cosine_quadrant (q r : Z) : Z :=
  match q with
  | 0 => cosine_poly r
  | 1 => if r =? 0 then 0 else - cosine_poly (262144 - r)
  | 2 => - cosine_poly r
  | _ => if r =? 0 then 0 else cosine_poly (262144 - r)
  end.

(** * Machine-integer lemmas *)

Section MachineIntegers.

Lemma to_bool_land1 a k :
    0 <= k -> to_bool (Z.land (Z.shiftr a k) 0x01) = Z.testbit a k.
  Proof.
    intros Hk. unfold to_bool.
    change 0x01 with (Z.ones 1). rewrite Z.land_ones by lia.
    change (2 ^ 1) with 2. rewrite <- Z.bit0_mod, Z.shiftr_spec by lia.
    simpl. now destruct (Z.testbit a k).
  Qed.

Lemma u64_small z : 0 <= z < 2 ^ 64 -> u64 z = z.
  Proof. intros H. unfold u64. now apply Z.mod_small. Qed.

Lemma s64_small z : is_int64 z -> s64 z = z.
  Proof.
    unfold is_int64, s64. intros H.
    rewrite Z.mod_small; lia.
  Qed.

Lemma s64_u64 z : s64 (u64 z) = s64 z.
  Proof.
    unfold s64, u64. now rewrite Zplus_mod_idemp_l.
  Qed.

Lemma neg_s64_opp z : - 2 ^ 63 < z < 2 ^ 63 -> neg_s64 z = - z.
  Proof.
    intros H. unfold neg_s64.
    pose proof (Z.add_lnot_diag z) as Hl.
    replace (Z.lnot z + 1) with (- z) by lia.
    apply s64_small. unfold is_int64. lia.
  Qed.

Lemma shiftr_all_bits v w (b : bool) :
    0 <= w ->
    (forall i, w <= i -> Z.testbit v i = b) ->
    Z.shiftr v w = if b then -1 else 0.
  Proof.
    intros Hw Hb. apply Z.bits_inj'. intros n Hn.
    rewrite Z.shiftr_spec by lia. rewrite Hb by lia.
    destruct b; [now rewrite Z.bits_m1 | now rewrite Z.bits_0].
  Qed.

Lemma shiftr_range v w :
    0 <= w ->
    (Z.shiftr v w = 0 \/ Z.shiftr v w = -1) <-> - 2 ^ w <= v < 2 ^ w.
  Proof.
    intros Hw. rewrite Z.shiftr_div_pow2 by lia.
    assert (0 < 2 ^ w) as Hp by (apply Z.pow_pos_nonneg; lia).
    revert Hp. generalize (2 ^ w). intros p Hp.
    split.
    - intros [H | H]; Z.div_mod_to_equations; nia.
    - intros H. Z.div_mod_to_equations. nia.
  Qed.

Lemma sign_extended_shiftr v w :
    0 <= w ->
    sign_extended v w <-> (Z.shiftr v w = 0 \/ Z.shiftr v w = -1).
  Proof.
    intros Hw. split.
    - intros Hs.
      assert (forall i, w <= i -> Z.testbit v i = Z.testbit v w) as Hall.
      { intros i Hi. destruct (Z.eq_dec i w) as [-> | Hne];
          [reflexivity | apply Hs; lia]. }
      rewrite (shiftr_all_bits v w _ Hw Hall).
      destruct (Z.testbit v w); auto.
    - intros H i Hi.
      replace i with ((i - w) + w) by lia.
      replace (Z.testbit v w) with (Z.testbit v (0 + w)) by (f_equal; lia).
      rewrite <- !Z.shiftr_spec by lia.
      destruct H as [-> | ->].
      + now rewrite !Z.bits_0.
      + now rewrite !Z.bits_m1 by lia.
  Qed.

Lemma sign_extended_range v w :
    0 <= w -> sign_extended v w <-> - 2 ^ w <= v < 2 ^ w.
  Proof.
    intros Hw. now rewrite sign_extended_shiftr, shiftr_range.
  Qed.

Lemma sanity_check_spec h :
    is_int64 h -> sanity_check h = true <-> h = 0 \/ h = -1.
  Proof.
    unfold is_int64, sanity_check, u64. intros Hh.
    change (2 ^ 63) with 9223372036854775808 in Hh.
    change (2 ^ 64) with 18446744073709551616.
    rewrite orb_true_iff, !Z.eqb_eq.
    split; (intros [H | H]; [now left | right]).
    - Z.div_mod_to_equations. lia.
    - subst h. reflexivity.
  Qed.

Lemma shiftr_is_int64 v k : 0 <= k -> is_int64 v -> is_int64 (Z.shiftr v k).
  Proof.
    unfold is_int64. intros Hk Hv.
    rewrite Z.shiftr_div_pow2 by lia.
    assert (0 < 2 ^ k) as Hp by (apply Z.pow_pos_nonneg; lia).
    revert Hp. generalize (2 ^ k). intros p Hp.
    change (2 ^ 63) with 9223372036854775808 in *.
    Z.div_mod_to_equations. nia.
  Qed.

End MachineIntegers.

(** * The overflow clamp *)

Section Clamp.

Lemma shr_s64_ok a k : 0 <= k < 64 -> shr_s64 a k = Ret (Z.shiftr a k).
Proof.
  intros H. unfold shr_s64.
  replace (0 <=? k) with true by (symmetry; apply Z.leb_le; lia).
  replace (k <? 64) with true by (symmetry; apply Z.ltb_lt; lia).
  reflexivity.
Qed.

Lemma pow2_le_int k : 0 <= k <= 30 -> 0 < 2 ^ k <= 2 ^ 30.
Proof.
  intros H. split.
  - apply Z.pow_pos_nonneg; lia.
  - apply Z.pow_le_mono_r; lia.
Qed.

Lemma in_int_true z : - 2 ^ 31 <= z < 2 ^ 31 -> in_int z = true.
Proof.
  intros H. unfold in_int.
  apply andb_true_intro. split; [apply Z.leb_le | apply Z.ltb_lt]; lia.
Qed.

Lemma shl_int_m1 k : 0 <= k <= 30 -> shl_int (-1) k = Ret (- 2 ^ k).
Proof.
  intros H. unfold shl_int.
  rewrite Z.shiftl_mul_pow2 by lia.
  pose proof (pow2_le_int k H) as Hp.
  change (2 ^ 30) with 1073741824 in Hp.
  rewrite in_int_true by (change (2 ^ 31) with 2147483648; lia).
  replace (0 <=? k) with true by (symmetry; apply Z.leb_le; lia).
  replace (k <? 32) with true by (symmetry; apply Z.ltb_lt; lia).
  cbn [andb]. f_equal; lia.
Qed.

Lemma shl_int_1 k : 0 <= k <= 30 -> shl_int 1 k = Ret (2 ^ k).
Proof.
  intros H. unfold shl_int.
  rewrite Z.shiftl_mul_pow2 by lia.
  pose proof (pow2_le_int k H) as Hp.
  change (2 ^ 30) with 1073741824 in Hp.
  rewrite in_int_true by (change (2 ^ 31) with 2147483648; lia).
  replace (0 <=? k) with true by (symmetry; apply Z.leb_le; lia).
  replace (k <? 32) with true by (symmetry; apply Z.ltb_lt; lia).
  cbn [andb]. f_equal; lia.
Qed.

Lemma sub_int_pow2 k : 0 <= k <= 30 -> sub_int (2 ^ k) 1 = Ret (2 ^ k - 1).
Proof.
  intros H. unfold sub_int.
  pose proof (pow2_le_int k H) as Hp.
  change (2 ^ 30) with 1073741824 in Hp.
  now rewrite in_int_true by (change (2 ^ 31) with 2147483648; lia).
Qed.

Lemma shiftr_min k : 0 <= k -> Z.shiftr (- 2 ^ k) k = -1.
Proof.
  intros H. rewrite Z.shiftr_div_pow2 by lia.
  assert (0 < 2 ^ k) as Hp by (apply Z.pow_pos_nonneg; lia).
  replace (- 2 ^ k) with (-1 * 2 ^ k) by lia.
  apply Z.div_mul. lia.
Qed.

Lemma shiftr_max k : 0 <= k -> Z.shiftr (2 ^ k - 1) k = 0.
Proof.
  intros H. rewrite Z.shiftr_div_pow2 by lia.
  assert (0 < 2 ^ k) as Hp by (apply Z.pow_pos_nonneg; lia).
  apply Z.div_small. lia.
Qed.

(** [clamp_overflow] in terms of the two inspected bits, for the widths at
    which its [int] constants are defined. *)
Lemma clamp_overflow_bits value width :
  1 <= width <= 31 ->
  clamp_overflow value width =
  if xorb (Z.testbit value width) (Z.testbit value (width - 1))
  then Ret (saturated (Z.testbit value width) width)
  else if sanity_check (Z.shiftr value (width - 1))
       then Ret value else Abort.
Proof.
  intros Hw. unfold clamp_overflow.
  rewrite Z.add_0_r, !shr_s64_ok by lia. cbn [bind].
  rewrite !to_bool_land1 by lia.
  destruct (Z.testbit value width), (Z.testbit value (width - 1));
    cbn [xorb saturated bind].
  - now rewrite shr_s64_ok by lia.
  - rewrite shl_int_m1 by lia. cbn [bind].
    rewrite shr_s64_ok by lia. cbn [bind].
    now rewrite shiftr_min by lia.
  - rewrite shl_int_1 by lia. cbn [bind].
    rewrite sub_int_pow2 by lia. cbn [bind].
    rewrite shr_s64_ok by lia. cbn [bind].
    now rewrite shiftr_max by lia.
  - now rewrite shr_s64_ok by lia.
Qed.

(** The saturated value always fits in [width] bits. *)
Lemma saturated_fits b width :
  1 <= width ->
  Z.shiftr (saturated b width) (width - 1) = if b then -1 else 0.
Proof.
  intros Hw. destruct b; cbn [saturated].
  - apply shiftr_min; lia.
  - apply shiftr_max; lia.
Qed.

(** When the two inspected bits agree and the bits above repeat them, the
    value already fits. *)
Lemma agree_fits value width :
  1 <= width ->
  sign_extended value width ->
  Z.testbit value width = Z.testbit value (width - 1) ->
  Z.shiftr value (width - 1) = 0 \/ Z.shiftr value (width - 1) = -1.
Proof.
  intros Hw Hs Hb.
  rewrite (shiftr_all_bits value (width - 1) (Z.testbit value width)).
  - destruct (Z.testbit value width); auto.
  - lia.
  - intros i Hi.
    destruct (Z.eq_dec i (width - 1)) as [-> | Hne1]; [now symmetry |].
    destruct (Z.eq_dec i width) as [-> | Hne2]; [reflexivity |].
    apply Hs. lia.
Qed.

(** The assertion on an unchanged value fails exactly when the shifted
    value is neither [0] nor [-1]. *)
Lemma abort_iff_check h value :
  (sanity_check h = true <-> h = 0 \/ h = -1) ->
  (if sanity_check h then Ret value else Abort) = Abort <->
  h <> 0 /\ h <> -1.
Proof.
  intros Hchk. destruct (sanity_check h).
  - split; [discriminate |]. intros [H0 H1].
    destruct (proj1 Hchk eq_refl); contradiction.
  - split; [| reflexivity]. intros _.
    split; intros He; assert (false = true) as Hf by (apply Hchk; auto);
      discriminate Hf.
Qed.

End Clamp.

(** * Decoding the argument *)

Section Argument.

Lemma u64_testbit v n : 0 <= n < 64 -> Z.testbit (u64 v) n = Z.testbit v n.
Proof.
  intros H. unfold u64. apply Z.mod_pow2_bits_low. lia.
Qed.

Lemma get_high0_bit v : get_high0 v = Z.testbit v 19.
Proof.
  unfold get_high0, ushr. rewrite to_bool_land1 by lia.
  apply u64_testbit. lia.
Qed.

Lemma get_high1_bit v : get_high1 v = Z.testbit v 18.
Proof.
  unfold get_high1, ushr. rewrite to_bool_land1 by lia.
  apply u64_testbit. lia.
Qed.

Lemma low18_u64 z : Z.land (u64 z) 0x3ffff = z mod 2 ^ 18.
Proof.
  change 0x3ffff with (Z.ones 18). rewrite Z.land_ones by lia.
  unfold u64. apply Z.mod_mod_divide.
  exists (2 ^ 46). reflexivity.
Qed.

Lemma fold_x1_eq v :
  fold_x1 v =
  if Z.testbit v 18 then (2 ^ 18 - v mod 2 ^ 18) mod 2 ^ 18 else v mod 2 ^ 18.
Proof.
  unfold fold_x1. rewrite get_high1_bit.
  destruct (Z.testbit v 18).
  - unfold usub. now rewrite !low18_u64.
  - apply low18_u64.
Qed.

Lemma fold_x1_range v : 0 <= fold_x1 v <= 262143.
Proof.
  rewrite fold_x1_eq.
  destruct (Z.testbit v 18).
  - pose proof (Z.mod_pos_bound (2 ^ 18 - v mod 2 ^ 18) (2 ^ 18) eq_refl) as H.
    change (2 ^ 18) with 262144 in *. lia.
  - pose proof (Z.mod_pos_bound v (2 ^ 18) eq_refl) as H.
    change (2 ^ 18) with 262144 in *. lia.
Qed.

(** Only bits 19 and 18 and the low 18 bits of the argument are read. *)
Lemma decode_mod v :
  get_high0 (v mod 2 ^ 20) = get_high0 v /\
  get_high1 (v mod 2 ^ 20) = get_high1 v /\
  fold_x1 (v mod 2 ^ 20) = fold_x1 v.
Proof.
  assert ((v mod 2 ^ 20) mod 2 ^ 18 = v mod 2 ^ 18) as Hlow.
  { apply Z.mod_mod_divide. exists 4. reflexivity. }
  rewrite !fold_x1_eq, !get_high0_bit, !get_high1_bit, Hlow.
  rewrite !Z.mod_pow2_bits_low by lia. auto.
Qed.

(** Flipping bit 19 changes [high0] and nothing else. *)
Lemma decode_flip19 v :
  get_high0 (Z.lxor v (2 ^ 19)) = negb (get_high0 v) /\
  get_high1 (Z.lxor v (2 ^ 19)) = get_high1 v /\
  fold_x1 (Z.lxor v (2 ^ 19)) = fold_x1 v.
Proof.
  assert (Z.lxor v (2 ^ 19) mod 2 ^ 18 = v mod 2 ^ 18) as Hlow.
  { apply Z.bits_inj'. intros n Hn.
    rewrite !Z.testbit_mod_pow2, Z.lxor_spec by lia.
    destruct (Z.ltb_spec n 18) as [Hlt | Hge]; [| reflexivity].
    rewrite Z.pow2_bits_false by lia.
    now rewrite xorb_false_r. }
  rewrite !fold_x1_eq, !get_high0_bit, !get_high1_bit, Hlow.
  rewrite !Z.lxor_spec.
  change (Z.testbit (2 ^ 19) 19) with true.
  change (Z.testbit (2 ^ 19) 18) with false.
  rewrite xorb_true_r, xorb_false_r. auto.
Qed.

End Argument.

(** * Bounds on the polynomials *)

Section Polynomials.

(** A product of two bounded [uint64_t] operands, shifted right. *)
Lemma mulshr_bound a b A B C k :
  0 <= a <= A -> 0 <= b <= B ->
  (A * B <? 2 ^ 64) = true -> ((A * B) / 2 ^ k <=? C) = true -> 0 <= k ->
  0 <= ushr (umul a b) k <= C.
Proof.
  intros Ha Hb HAB HC Hk.
  apply Z.ltb_lt in HAB. apply Z.leb_le in HC.
  assert (0 <= a * b <= A * B) as Hab by nia.
  unfold ushr, umul. rewrite u64_small by lia.
  rewrite Z.shiftr_div_pow2 by lia.
  assert (0 < 2 ^ k) as Hp by (apply Z.pow_pos_nonneg; lia).
  split.
  - apply Z.div_pos; lia.
  - apply Z.le_trans with (A * B / 2 ^ k); [| exact HC].
    apply Z.div_le_mono; lia.
Qed.

Lemma s64_u64_add x y : s64 (u64 x + y) = s64 (x + y).
Proof.
  unfold s64, u64. rewrite <- !Z.add_assoc. now rewrite Zplus_mod_idemp_l.
Qed.

Lemma s64_alternating a b c d :
  s64 (usub (uadd (usub a b) c) d) = s64 (a - b + c - d).
Proof.
  unfold usub, uadd. rewrite s64_u64.
  rewrite <- !Z.add_opp_r.
  rewrite <- Z.add_assoc, s64_u64_add.
  rewrite <- Z.add_assoc, s64_u64_add.
  f_equal; lia.
Qed.

Lemma s64_alternating5 o a b c d :
  s64 (uadd (usub (uadd (usub (u64 o) a) b) c) d) = s64 (o - a + b - c + d).
Proof.
  unfold usub, uadd. rewrite s64_u64.
  rewrite <- !Z.add_opp_r.
  rewrite <- Z.add_assoc, s64_u64_add.
  rewrite <- Z.add_assoc, s64_u64_add.
  rewrite <- Z.add_assoc, s64_u64_add.
  rewrite <- Z.add_assoc, s64_u64_add.
  f_equal; lia.
Qed.

Lemma sine_poly_range x1 :
  0 <= x1 <= 262143 -> -85254 <= sine_poly x1 <= 216324.
Proof.
  intros Hx. unfold sine_poly, Sine.k1, Sine.k3, Sine.k5, Sine.k7.
  set (x2 := ushr (umul x1 x1) 18).
  set (x3 := ushr (umul x2 x1) 18).
  set (x5 := ushr (umul x2 x3) 18).
  set (x7 := ushr (umul x2 x5) 18).
  assert (0 <= x2 <= 262143) as H2
      by (apply mulshr_bound with (A := 262143) (B := 262143); easy).
  assert (0 <= x3 <= 262143) as H3
      by (apply mulshr_bound with (A := 262143) (B := 262143); easy).
  assert (0 <= x5 <= 262143) as H5
      by (apply mulshr_bound with (A := 262143) (B := 262143); easy).
  assert (0 <= x7 <= 262143) as H7
      by (apply mulshr_bound with (A := 262143) (B := 262143); easy).
  pose proof (mulshr_bound 205887 x1 205887 262143 411772 17) as K1.
  pose proof (mulshr_bound 169336 x3 169336 262143 169335 18) as K3.
  pose proof (mulshr_bound 167014 x5 167014 262143 20876 21) as K5.
  pose proof (mulshr_bound 150000 x7 150000 262143 1171 25) as K7.
  specialize (K1 ltac:(lia) Hx eq_refl eq_refl ltac:(lia)).
  specialize (K3 ltac:(lia) H3 eq_refl eq_refl ltac:(lia)).
  specialize (K5 ltac:(lia) H5 eq_refl eq_refl ltac:(lia)).
  specialize (K7 ltac:(lia) H7 eq_refl eq_refl ltac:(lia)).
  revert K1 K3 K5 K7.
  generalize (ushr (umul 205887 x1) 17) (ushr (umul 169336 x3) 18)
             (ushr (umul 167014 x5) 21) (ushr (umul 150000 x7) 25).
  intros kx1 kx3 kx5 kx7 K1 K3 K5 K7.
  rewrite s64_alternating, s64_small
    by (unfold is_int64; change (2 ^ 63) with 9223372036854775808; lia).
  rewrite Z.shiftr_div_pow2 by lia. change (2 ^ 1) with 2.
  Z.div_mod_to_equations. lia.
Qed.

Lemma cosine_poly_range x1 :
  0 <= x1 <= 262143 -> -33367 <= cosine_poly x1 <= 164440.
Proof.
  intros Hx. unfold cosine_poly, Cosine.k2, Cosine.k4, Cosine.k6, Cosine.k8.
  set (x2 := ushr (umul x1 x1) 18).
  set (x4 := ushr (umul x2 x2) 18).
  set (x6 := ushr (umul x4 x2) 18).
  set (x8 := ushr (umul x4 x4) 18).
  assert (0 <= x2 <= 262143) as H2
      by (apply mulshr_bound with (A := 262143) (B := 262143); easy).
  assert (0 <= x4 <= 262143) as H4
      by (apply mulshr_bound with (A := 262143) (B := 262143); easy).
  assert (0 <= x6 <= 262143) as H6
      by (apply mulshr_bound with (A := 262143) (B := 262143); easy).
  assert (0 <= x8 <= 262143) as H8
      by (apply mulshr_bound with (A := 262143) (B := 262143); easy).
  pose proof (mulshr_bound 161704 x2 161704 262143 323407 17) as K2.
  pose proof (mulshr_bound 132996 x4 132996 262143 66498 19) as K4.
  pose proof (mulshr_bound 175016 x6 175016 262143 5470 23) as K6.
  pose proof (mulshr_bound 241700 x8 241700 262143 237 28) as K8.
  specialize (K2 ltac:(lia) H2 eq_refl eq_refl ltac:(lia)).
  specialize (K4 ltac:(lia) H4 eq_refl eq_refl ltac:(lia)).
  specialize (K6 ltac:(lia) H6 eq_refl eq_refl ltac:(lia)).
  specialize (K8 ltac:(lia) H8 eq_refl eq_refl ltac:(lia)).
  revert K2 K4 K6 K8.
  generalize (ushr (umul 161704 x2) 17) (ushr (umul 132996 x4) 19)
             (ushr (umul 175016 x6) 23) (ushr (umul 241700 x8) 28).
  intros kx2 kx4 kx6 kx8 K2 K4 K6 K8.
  rewrite s64_alternating5, s64_small
    by (unfold is_int64; change (Z.shiftl 1 18) with 262144;
        change (2 ^ 63) with 9223372036854775808; lia).
  change (Z.shiftl 1 18) with 262144.
  rewrite Z.shiftr_div_pow2 by lia. change (2 ^ 1) with 2.
  Z.div_mod_to_equations. lia.
Qed.

End Polynomials.

(** * The clamp at width 18 and the sums handed to it *)

Section Width18.

Lemma saturate18_range s : -131072 <= saturate18 s <= 131071.
Proof.
  unfold saturate18.
  destruct (Z.ltb_spec s (-131072)); [lia |].
  destruct (Z.ltb_spec 131071 s); lia.
Qed.

Lemma clamp_overflow_18 s :
  -262144 <= s < 262144 -> clamp_overflow s 18 = Ret (saturate18 s).
Proof.
  intros Hs. rewrite clamp_overflow_bits by lia.
  rewrite !Z.testbit_eqb, Z.shiftr_div_pow2 by lia.
  change (18 - 1) with 17.
  change (2 ^ 18) with 262144. change (2 ^ 17) with 131072.
  unfold saturate18, saturated.
  destruct (Z.ltb_spec s (-131072)) as [H1 | H1].
  - replace (s / 262144) with (-1) by (Z.div_mod_to_equations; lia).
    replace (s / 131072) with (-2) by (Z.div_mod_to_equations; lia).
    reflexivity.
  - destruct (Z.ltb_spec 131071 s) as [H2 | H2].
    + replace (s / 262144) with 0 by (Z.div_mod_to_equations; lia).
      replace (s / 131072) with 1 by (Z.div_mod_to_equations; lia).
      reflexivity.
    + destruct (Z_lt_le_dec s 0) as [H3 | H3].
      * replace (s / 262144) with (-1) by (Z.div_mod_to_equations; lia).
        replace (s / 131072) with (-1) by (Z.div_mod_to_equations; lia).
        reflexivity.
      * replace (s / 262144) with 0 by (Z.div_mod_to_equations; lia).
        replace (s / 131072) with 0 by (Z.div_mod_to_equations; lia).
        reflexivity.
Qed.

Lemma sine_base_range v : -85254 <= sine_base v <= 216324.
Proof.
  unfold sine_base.
  destruct ((fold_x1 v =? 0) && get_high1 v).
  - change (Z.shiftl 1 17) with 131072. lia.
  - apply sine_poly_range, fold_x1_range.
Qed.

Lemma cosine_base_range v : -33367 <= cosine_base v <= 164440.
Proof.
  unfold cosine_base.
  destruct ((fold_x1 v =? 0) && get_high1 v).
  - lia.
  - apply cosine_poly_range, fold_x1_range.
Qed.

Lemma neg_s64_small z : -262144 < z < 262144 -> neg_s64 z = - z.
Proof.
  intros H. apply neg_s64_opp.
  change (2 ^ 63) with 9223372036854775808. lia.
Qed.

Lemma sine_sum_eq v :
  sine_sum v = if get_high0 v then - sine_base v else sine_base v.
Proof.
  unfold sine_sum. fold (sine_base v).
  destruct (get_high0 v); [| reflexivity].
  apply neg_s64_small. pose proof (sine_base_range v). lia.
Qed.

Lemma cosine_sum_eq v :
  cosine_sum v =
  if xorb (get_high0 v) (get_high1 v) then - cosine_base v else cosine_base v.
Proof.
  unfold cosine_sum. fold (cosine_base v).
  destruct (xorb (get_high0 v) (get_high1 v)); [| reflexivity].
  apply neg_s64_small. pose proof (cosine_base_range v). lia.
Qed.

Lemma sine_sum_range v : -262144 < sine_sum v < 262144.
Proof.
  rewrite sine_sum_eq. pose proof (sine_base_range v).
  destruct (get_high0 v); lia.
Qed.

Lemma cosine_sum_range v : -262144 < cosine_sum v < 262144.
Proof.
  rewrite cosine_sum_eq. pose proof (cosine_base_range v).
  destruct (xorb (get_high0 v) (get_high1 v)); lia.
Qed.

Lemma sine_eq v : sine v = Ret (saturate18 (sine_sum v)).
Proof.
  unfold sine. apply clamp_overflow_18.
  pose proof (sine_sum_range v). lia.
Qed.

Lemma cosine_eq v : cosine v = Ret (saturate18 (cosine_sum v)).
Proof.
  unfold cosine. apply clamp_overflow_18.
  pose proof (cosine_sum_range v). lia.
Qed.

(** Decoding a value of magnitude at most [2^17] at scale [2^17]. *)
Lemma fixed_to_float_unit r :
  -131072 <= r <= 131072 ->
  (-1 <= fixed_to_float r 17)%Q /\ (fixed_to_float r 17 <= 1)%Q.
Proof.
  intros H. unfold fixed_to_float.
  change (Z.shiftl 1 17) with 131072.
  unfold Qle, Qdiv, Qmult, Qinv, inject_Z. simpl. lia.
Qed.

End Width18.

(** * The claims *)

(** C1, as stated, fails: at the quarter turn [sine] does not return
    [2^17]. *)
Lemma sine_quarter_turn_not_one : sine (2 ^ 18) <> Ret (2 ^ 17).
Proof. vm_compute. discriminate. Qed.

(** C1 (amended): at the argument [2^18] (bit 18 set, folded value 0) the
    sum is overridden to [2^17], and the 18-bit clamp saturates it: [sine]
    returns [2^17 - 1 = 131071], which decodes at scale [2^17] to
    [131071/131072], strictly below [+1.0]. *)
Theorem sine_quarter_turn :
  get_high1 (2 ^ 18) = true /\ fold_x1 (2 ^ 18) = 0 /\
  sine_sum (2 ^ 18) = 2 ^ 17 /\
  sine (2 ^ 18) = Ret (2 ^ 17 - 1) /\
  (fixed_to_float (2 ^ 17 - 1) 17 == 131071 # 131072)%Q /\
  (fixed_to_float (2 ^ 17 - 1) 17 < 1)%Q.
Proof. repeat split. Qed.

(** C2: for every 20-bit argument, [sine] and [cosine] return values that
    decode, at scale [2^17], into [[-1, 1]]. *)
Theorem sincos_decoded_range (v : Z) :
  0 <= v < 2 ^ 20 ->
  exists s c,
    sine v = Ret s /\ cosine v = Ret c /\
    (-1 <= fixed_to_float s 17)%Q /\ (fixed_to_float s 17 <= 1)%Q /\
    (-1 <= fixed_to_float c 17)%Q /\ (fixed_to_float c 17 <= 1)%Q.
Proof.
  intros _.
  exists (saturate18 (sine_sum v)), (saturate18 (cosine_sum v)).
  pose proof (saturate18_range (sine_sum v)) as Hs.
  pose proof (saturate18_range (cosine_sum v)) as Hc.
  destruct (fixed_to_float_unit (saturate18 (sine_sum v))) as [Hs1 Hs2];
    [lia |].
  destruct (fixed_to_float_unit (saturate18 (cosine_sum v))) as [Hc1 Hc2];
    [lia |].
  split; [apply sine_eq |]. split; [apply cosine_eq |]. auto.
Qed.

Lemma sincos_decoded_range_witness :
  0 <= 786432 < 2 ^ 20 /\
  exists s c,
    sine 786432 = Ret s /\ cosine 786432 = Ret c /\
    (-1 <= fixed_to_float s 17)%Q /\ (fixed_to_float s 17 <= 1)%Q /\
    (-1 <= fixed_to_float c 17)%Q /\ (fixed_to_float c 17 <= 1)%Q.
Proof.
  split; [vm_compute; split; [discriminate | reflexivity] |].
  apply (sincos_decoded_range 786432).
  vm_compute; split; [discriminate | reflexivity].
Defined.

(** C3: for every 20-bit argument [sine] and [cosine] return a value; the
    sum each hands to [clamp_overflow] has all its bits above position 18
    equal to bit 18, so the assertion never fails. *)
Theorem sincos_total (v : Z) :
  0 <= v < 2 ^ 20 ->
  (exists r, sine v = Ret r) /\ (exists r, cosine v = Ret r) /\
  sine v <> Abort /\ cosine v <> Abort /\
  sign_extended (sine_sum v) 18 /\ sign_extended (cosine_sum v) 18.
Proof.
  intros _.
  pose proof (sine_sum_range v) as Hs.
  pose proof (cosine_sum_range v) as Hc.
  rewrite !sign_extended_range by lia.
  change (2 ^ 18) with 262144.
  rewrite sine_eq, cosine_eq.
  repeat split; eauto; try discriminate; lia.
Qed.

Lemma sincos_total_witness :
  0 <= 1048575 < 2 ^ 20 /\
  (exists r, sine 1048575 = Ret r) /\ (exists r, cosine 1048575 = Ret r) /\
  sine 1048575 <> Abort /\ cosine 1048575 <> Abort /\
  sign_extended (sine_sum 1048575) 18 /\
  sign_extended (cosine_sum 1048575) 18.
Proof.
  split; [vm_compute; split; [discriminate | reflexivity] |].
  apply (sincos_total 1048575).
  vm_compute; split; [discriminate | reflexivity].
Defined.

(** C4, as stated for any width, fails: at width 40 the saturation
    constant [(1 << 39) - 1] is an [int] expression whose shift count
    exceeds the width of [int]; the call does not return [2^39 - 1]. *)
Lemma clamp_overflow_width_40 :
  is_int64 (2 ^ 39) /\ sign_extended (2 ^ 39) 40 /\
  Z.testbit (2 ^ 39) 40 <> Z.testbit (2 ^ 39) (40 - 1) /\
  clamp_overflow (2 ^ 39) 40 = Undefined /\
  clamp_overflow (2 ^ 39) 40 <> Ret (2 ^ (40 - 1) - 1).
Proof.
  split; [| split; [| split; [| split]]].
  - vm_compute. split; [discriminate | reflexivity].
  - apply sign_extended_range; [lia |].
    vm_compute. split; [discriminate | reflexivity].
  - vm_compute. discriminate.
  - reflexivity.
  - vm_compute. discriminate.
Qed.

(** C4 (amended): for a width [w] with [1 <= w <= 31] and an [int64_t]
    value whose bits above position [w] repeat bit [w]: when bits [w] and
    [w-1] differ the result is [-2^(w-1)] if bit [w] is set and
    [2^(w-1) - 1] otherwise; when they agree the value is returned
    unchanged; and the result shifted right by [w-1] is always [0] or
    [-1]. *)
Theorem clamp_overflow_contract (value w : Z) :
  is_int64 value -> 1 <= w <= 31 -> sign_extended value w ->
  (Z.testbit value w <> Z.testbit value (w - 1) ->
   clamp_overflow value w =
   Ret (if Z.testbit value w then - 2 ^ (w - 1) else 2 ^ (w - 1) - 1)) /\
  (Z.testbit value w = Z.testbit value (w - 1) ->
   clamp_overflow value w = Ret value) /\
  (exists r, clamp_overflow value w = Ret r /\
             (Z.shiftr r (w - 1) = 0 \/ Z.shiftr r (w - 1) = -1)).
Proof.
  intros Hv Hw Hs.
  rewrite clamp_overflow_bits by lia.
  pose proof (agree_fits value w ltac:(lia) Hs) as Hfit.
  pose proof (saturated_fits (Z.testbit value w) w ltac:(lia)) as Hsat.
  pose proof (sanity_check_spec (Z.shiftr value (w - 1))
                (shiftr_is_int64 value (w - 1) ltac:(lia) Hv)) as Hchk.
  unfold saturated in *.
  destruct (Z.testbit value w), (Z.testbit value (w - 1)); cbn [xorb].
  - assert (sanity_check (Z.shiftr value (w - 1)) = true) as ->
        by (apply Hchk, Hfit; reflexivity).
    split; [congruence |]. split; [reflexivity |].
    exists value. auto.
  - split; [reflexivity |]. split; [discriminate |].
    exists (- 2 ^ (w - 1)). auto.
  - split; [reflexivity |]. split; [discriminate |].
    exists (2 ^ (w - 1) - 1). auto.
  - assert (sanity_check (Z.shiftr value (w - 1)) = true) as ->
        by (apply Hchk, Hfit; reflexivity).
    split; [congruence |]. split; [reflexivity |].
    exists value. auto.
Qed.

Lemma clamp_overflow_contract_witness :
  is_int64 (-200000) /\ 1 <= 18 <= 31 /\ sign_extended (-200000) 18 /\
  clamp_overflow (-200000) 18 = Ret (-131072).
Proof.
  assert (is_int64 (-200000)) as Hv
      by (vm_compute; split; [discriminate | reflexivity]).
  assert (1 <= 18 <= 31) as Hw by (vm_compute; split; discriminate).
  assert (sign_extended (-200000) 18) as Hs
      by (apply sign_extended_range; [lia |];
          vm_compute; split; [discriminate | reflexivity]).
  split; [exact Hv |]. split; [exact Hw |]. split; [exact Hs |].
  destruct (clamp_overflow_contract (-200000) 18 Hv Hw Hs) as [Hd _].
  apply Hd. vm_compute. discriminate.
Defined.

(** C5, as stated, fails: at the quarter turn [sine] returns [131071] and
    with bit 19 flipped it returns [-131072], which is not the two's
    complement negation of [131071]. *)
Lemma sine_flip_quarter_turn :
  sine (2 ^ 18) = Ret 131071 /\
  sine (Z.lxor (2 ^ 18) (2 ^ 19)) = Ret (-131072) /\
  neg_s64 131071 <> -131072.
Proof.
  split; [reflexivity |]. split; [reflexivity |].
  vm_compute. discriminate.
Qed.

(** C5 (amended): for every 20-bit argument [v], flipping bit 19 negates
    the result of [sine] (two's complement negation) unless one of the two
    results is [-131072]; in that case the other one is the saturated
    [131071]. *)
Theorem sine_flip_high0 (v : Z) :
  0 <= v < 2 ^ 20 ->
  exists r r',
    sine v = Ret r /\ sine (Z.lxor v (2 ^ 19)) = Ret r' /\
    (r <> -131072 -> r' <> -131072 -> r' = neg_s64 r) /\
    (r = -131072 -> r' = 131071) /\
    (r' = -131072 -> r = 131071).
Proof.
  intros _.
  exists (saturate18 (sine_sum v)), (saturate18 (sine_sum (Z.lxor v (2 ^ 19)))).
  split; [apply sine_eq |]. split; [apply sine_eq |].
  pose proof (saturate18_range (sine_sum v)) as Hr.
  rewrite neg_s64_small by lia.
  rewrite !sine_sum_eq.
  destruct (decode_flip19 v) as (H0 & H1 & Hx).
  assert (sine_base (Z.lxor v (2 ^ 19)) = sine_base v) as ->
      by (unfold sine_base; now rewrite H1, Hx).
  rewrite H0.
  pose proof (sine_base_range v) as Hb.
  revert Hr. rewrite sine_sum_eq.
  generalize (sine_base v) Hb. intros b Hb' _.
  unfold saturate18.
  destruct (get_high0 v); cbn [negb];
    repeat match goal with
           | |- context [?a <? ?b] => destruct (Z.ltb_spec a b)
           end; lia.
Qed.

Lemma sine_flip_high0_witness :
  0 <= 100000 < 2 ^ 20 /\
  exists r r',
    sine 100000 = Ret r /\ sine (Z.lxor 100000 (2 ^ 19)) = Ret r' /\
    (r <> -131072 -> r' <> -131072 -> r' = neg_s64 r) /\
    (r = -131072 -> r' = 131071) /\
    (r' = -131072 -> r = 131071).
Proof.
  split; [vm_compute; split; [discriminate | reflexivity] |].
  apply (sine_flip_high0 100000).
  vm_compute; split; [discriminate | reflexivity].
Defined.

(** C6: at the quarter turn (argument [2^18]) [cosine] returns exactly
    [0]. *)
Theorem cosine_quarter_turn : cosine (2 ^ 18) = Ret 0.
Proof. reflexivity. Qed.

(** C7, as stated, fails: [cosine] does not return [2^17] at angle 0. *)
Lemma cosine_zero_not_one : cosine 0 <> Ret 131072.
Proof. vm_compute. discriminate. Qed.

(** C7 (amended): at angle 0 no boundary flag fires, [sine] returns
    exactly [0], and the polynomial of [cosine] yields exactly [2^17],
    which the 18-bit clamp saturates: [cosine] returns [131071]. *)
Theorem sincos_zero :
  get_high1 0 = false /\
  sine 0 = Ret 0 /\
  cosine_sum 0 = 131072 /\
  cosine 0 = Ret 131071.
Proof. repeat split. Qed.

(** C8, as stated, fails: a value whose two inspected bits disagree is
    saturated and returned, the assertion holds. *)
Lemma clamp_overflow_disagree_returns :
  is_int64 131072 /\
  Z.testbit 131072 18 <> Z.testbit 131072 (18 - 1) /\
  clamp_overflow 131072 18 = Ret 131071 /\
  clamp_overflow 131072 18 <> Abort.
Proof.
  split; [vm_compute; split; [discriminate | reflexivity] |].
  split; [vm_compute; discriminate |].
  split; [reflexivity | vm_compute; discriminate].
Qed.

(** C8 (amended): for a width [w] with [1 <= w <= 31], [clamp_overflow]
    aborts exactly when bits [w] and [w-1] of the value agree and the value
    shifted right by [w-1] is neither [0] nor [-1], that is when a bit
    above [w] differs from the two inspected ones; a value whose two
    inspected bits disagree never aborts. *)
Theorem clamp_overflow_abort_iff (value w : Z) :
  is_int64 value -> 1 <= w <= 31 ->
  (clamp_overflow value w = Abort <->
   Z.testbit value w = Z.testbit value (w - 1) /\
   Z.shiftr value (w - 1) <> 0 /\ Z.shiftr value (w - 1) <> -1) /\
  (Z.testbit value w <> Z.testbit value (w - 1) ->
   exists r, clamp_overflow value w = Ret r).
Proof.
  intros Hv Hw.
  rewrite clamp_overflow_bits by lia.
  pose proof (sanity_check_spec (Z.shiftr value (w - 1))
                (shiftr_is_int64 value (w - 1) ltac:(lia) Hv)) as Hchk.
  pose proof (abort_iff_check _ value Hchk) as Hab.
  destruct (Z.testbit value w), (Z.testbit value (w - 1)); cbn [xorb].
  - split; [| congruence]. rewrite Hab. tauto.
  - split; [| eauto]. split; [discriminate | intros (Hd & _); discriminate].
  - split; [| eauto]. split; [discriminate | intros (Hd & _); discriminate].
  - split; [| congruence]. rewrite Hab. tauto.
Qed.

Lemma clamp_overflow_abort_iff_witness :
  is_int64 524288 /\ 1 <= 18 <= 31 /\ clamp_overflow 524288 18 = Abort.
Proof.
  assert (is_int64 524288) as Hv
      by (vm_compute; split; [discriminate | reflexivity]).
  assert (1 <= 18 <= 31) as Hw by (vm_compute; split; discriminate).
  split; [exact Hv |]. split; [exact Hw |].
  apply (proj1 (clamp_overflow_abort_iff 524288 18 Hv Hw)).
  vm_compute. repeat split; discriminate.
Defined.

(** C9: for every 20-bit argument, [sine] and [cosine] return a value of
    the signed 18-bit range [[-131072, 131071]]; [131072] is never
    returned. *)
Theorem sincos_signed18 (v : Z) :
  0 <= v < 2 ^ 20 ->
  exists s c,
    sine v = Ret s /\ cosine v = Ret c /\
    -131072 <= s <= 131071 /\ -131072 <= c <= 131071 /\
    sine v <> Ret 131072 /\ cosine v <> Ret 131072.
Proof.
  intros _.
  exists (saturate18 (sine_sum v)), (saturate18 (cosine_sum v)).
  pose proof (saturate18_range (sine_sum v)) as Hs.
  pose proof (saturate18_range (cosine_sum v)) as Hc.
  rewrite sine_eq, cosine_eq.
  split; [reflexivity |]. split; [reflexivity |].
  split; [exact Hs |]. split; [exact Hc |].
  split; intros He; injection He as He; lia.
Qed.

Lemma sincos_signed18_witness :
  0 <= 2 ^ 18 < 2 ^ 20 /\
  exists s c,
    sine (2 ^ 18) = Ret s /\ cosine (2 ^ 18) = Ret c /\
    -131072 <= s <= 131071 /\ -131072 <= c <= 131071 /\
    sine (2 ^ 18) <> Ret 131072 /\ cosine (2 ^ 18) <> Ret 131072.
Proof.
  split; [vm_compute; split; [discriminate | reflexivity] |].
  apply (sincos_signed18 (2 ^ 18)).
  vm_compute; split; [discriminate | reflexivity].
Defined.

(** C10: bits 20 and above of the argument are ignored: for every
    [int64_t] argument [v], [sine v] and [cosine v] are the results at
    [v mod 2^20]. *)
Theorem sincos_high_bits_ignored (v : Z) :
  is_int64 v ->
  sine v = sine (v mod 2 ^ 20) /\ cosine v = cosine (v mod 2 ^ 20).
Proof.
  intros _.
  destruct (decode_mod v) as (H0 & H1 & Hx).
  unfold sine, cosine, sine_sum, cosine_sum.
  now rewrite H0, H1, Hx.
Qed.

Lemma sincos_high_bits_ignored_witness :
  is_int64 (-1) /\
  sine (-1) = sine ((-1) mod 2 ^ 20) /\
  cosine (-1) = cosine ((-1) mod 2 ^ 20).
Proof.
  assert (is_int64 (-1)) as Hv
      by (vm_compute; split; [discriminate | reflexivity]).
  split; [exact Hv |].
  apply (sincos_high_bits_ignored (-1) Hv).
Defined.

(** * Further properties of the overflow clamp *)

Section ClampGeneral.

Lemma shiftr_eq v n q :
  0 <= n -> 2 ^ n * q <= v < 2 ^ n * (q + 1) -> Z.shiftr v n = q.
Proof.
  intros Hn Hv. rewrite Z.shiftr_div_pow2 by lia.
  symmetry. apply Z.div_unique_pos with (r := v - 2 ^ n * q); lia.
Qed.

Lemma pow2_double w : 1 <= w -> 2 ^ w = 2 * 2 ^ (w - 1) /\ 0 < 2 ^ (w - 1).
Proof.
  intros Hw. split.
  - replace w with (Z.succ (w - 1)) at 1 by lia.
    apply Z.pow_succ_r. lia.
  - apply Z.pow_pos_nonneg; lia.
Qed.

(** The two inspected bits and the check, from the two quotients. *)
Lemma clamp_overflow_quotients v w q1 q0 :
  1 <= w <= 31 ->
  Z.shiftr v w = q1 -> Z.shiftr v (w - 1) = q0 ->
  clamp_overflow v w =
  if xorb (Z.odd q1) (Z.odd q0)
  then Ret (saturated (Z.odd q1) w)
  else if sanity_check q0 then Ret v else Abort.
Proof.
  intros Hw H1 H0. rewrite clamp_overflow_bits by lia.
  now rewrite !Z.testbit_odd, H1, H0.
Qed.

(** A value of the signed [w]-bit range is returned unchanged. *)
Lemma clamp_in_range v w :
  1 <= w <= 31 -> - 2 ^ (w - 1) <= v < 2 ^ (w - 1) ->
  clamp_overflow v w = Ret v.
Proof.
  intros Hw Hv.
  destruct (pow2_double w ltac:(lia)) as [Hd Hp].
  assert (v < 0 \/ 0 <= v) as [Hc | Hc] by lia.
  - rewrite (clamp_overflow_quotients v w (-1) (-1)); try lia;
      try (apply shiftr_eq; lia).
    reflexivity.
  - rewrite (clamp_overflow_quotients v w 0 0); try lia;
      try (apply shiftr_eq; lia).
    reflexivity.
Qed.

(** On a value whose bits above [w] repeat bit [w], that is on
    [[-2^w, 2^w)], the clamp is the saturation to [w] bits. *)
Theorem clamp_overflow_saturates (v w : Z) :
  1 <= w <= 31 -> - 2 ^ w <= v < 2 ^ w ->
  clamp_overflow v w =
  Ret (Z.max (- 2 ^ (w - 1)) (Z.min (2 ^ (w - 1) - 1) v)).
Proof.
  intros Hw Hv.
  destruct (pow2_double w ltac:(lia)) as [Hd Hp].
  assert (v < - 2 ^ (w - 1) \/ - 2 ^ (w - 1) <= v < 0 \/
          0 <= v < 2 ^ (w - 1) \/ 2 ^ (w - 1) <= v) as Hc by lia.
  destruct Hc as [Hc | [Hc | [Hc | Hc]]].
  - rewrite (clamp_overflow_quotients v w (-1) (-2)); try lia;
      try (apply shiftr_eq; lia).
    cbn [Z.odd xorb saturated]. f_equal; lia.
  - rewrite (clamp_overflow_quotients v w (-1) (-1)); try lia;
      try (apply shiftr_eq; lia).
    change (sanity_check (-1)) with true. cbn [Z.odd xorb]. f_equal; lia.
  - rewrite (clamp_overflow_quotients v w 0 0); try lia;
      try (apply shiftr_eq; lia).
    cbn [Z.odd xorb sanity_check Z.eqb orb]. f_equal; lia.
  - rewrite (clamp_overflow_quotients v w 0 1); try lia;
      try (apply shiftr_eq; lia).
    cbn [Z.odd xorb saturated]. f_equal; lia.
Qed.


Lemma clamp_overflow_saturates_witness :
  1 <= 18 <= 31 /\ - 2 ^ 18 <= 200000 < 2 ^ 18 /\
  clamp_overflow 200000 18 =
  Ret (Z.max (- 2 ^ (18 - 1)) (Z.min (2 ^ (18 - 1) - 1) 200000)).
Proof.
  assert (1 <= 18 <= 31) as Hw by (vm_compute; split; discriminate).
  assert (- 2 ^ 18 <= 200000 < 2 ^ 18) as Hv
      by (vm_compute; split; [discriminate | reflexivity]).
  split; [exact Hw |]. split; [exact Hv |].
  exact (clamp_overflow_saturates 200000 18 Hw Hv).
Defined.

(** Only two bits are inspected: a positive value in
    [[2^w, 2^w + 2^(w-1))] has bit [w] set and bit [w-1] clear and is
    replaced by the minimum, and a negative value in
    [[-2^w - 2^(w-1), -2^w)] by the maximum. *)
Theorem clamp_overflow_far_overflow (v w : Z) :
  1 <= w <= 31 ->
  (2 ^ w <= v < 2 ^ w + 2 ^ (w - 1) ->
   clamp_overflow v w = Ret (- 2 ^ (w - 1))) /\
  (- 2 ^ w - 2 ^ (w - 1) <= v < - 2 ^ w ->
   clamp_overflow v w = Ret (2 ^ (w - 1) - 1)).
Proof.
  intros Hw.
  destruct (pow2_double w ltac:(lia)) as [Hd Hp].
  split; intros Hv.
  - rewrite (clamp_overflow_quotients v w 1 2); try lia;
      try (apply shiftr_eq; lia).
    reflexivity.
  - rewrite (clamp_overflow_quotients v w (-2) (-3)); try lia;
      try (apply shiftr_eq; lia).
    reflexivity.
Qed.

Lemma clamp_overflow_far_overflow_witness :
  1 <= 18 <= 31 /\
  clamp_overflow 300000 18 = Ret (- 2 ^ (18 - 1)) /\
  clamp_overflow (-300000) 18 = Ret (2 ^ (18 - 1) - 1).
Proof.
  assert (1 <= 18 <= 31) as Hw by (vm_compute; split; discriminate).
  split; [exact Hw |].
  destruct (clamp_overflow_far_overflow 300000 18 Hw) as [Hpos _].
  destruct (clamp_overflow_far_overflow (-300000) 18 Hw) as [_ Hneg].
  split.
  - apply Hpos. vm_compute. split; [discriminate | reflexivity].
  - apply Hneg. vm_compute. split; [discriminate | reflexivity].
Defined.

(** A returned result lies in the signed [w]-bit range. *)
Lemma clamp_returns_in_range v w r :
  is_int64 v -> 1 <= w <= 31 ->
  clamp_overflow v w = Ret r -> - 2 ^ (w - 1) <= r < 2 ^ (w - 1).
Proof.
  intros Hv Hw.
  rewrite clamp_overflow_bits by lia.
  destruct (pow2_double w ltac:(lia)) as [Hd Hp].
  pose proof (sanity_check_spec (Z.shiftr v (w - 1))
                (shiftr_is_int64 v (w - 1) ltac:(lia) Hv)) as Hchk.
  destruct (xorb (Z.testbit v w) (Z.testbit v (w - 1))).
  - intros He. injection He as <-.
    unfold saturated. destruct (Z.testbit v w); lia.
  - destruct (sanity_check (Z.shiftr v (w - 1))); [| discriminate].
    intros He. injection He as <-.
    apply shiftr_range; [lia |]. now apply Hchk.
Qed.



(** The values the clamp returns unchanged are exactly those of the
    signed [w]-bit range. *)
Theorem clamp_overflow_identity_iff (v w : Z) :
  is_int64 v -> 1 <= w <= 31 ->
  (clamp_overflow v w = Ret v <-> - 2 ^ (w - 1) <= v < 2 ^ (w - 1)).
Proof.
  intros Hv Hw.
  destruct (pow2_double w ltac:(lia)) as [Hd Hp].
  split.
  - now apply clamp_returns_in_range.
  - now apply clamp_in_range.
Qed.

Lemma clamp_overflow_identity_iff_witness :
  is_int64 (-131072) /\ 1 <= 18 <= 31 /\
  clamp_overflow (-131072) 18 = Ret (-131072).
Proof.
  assert (is_int64 (-131072)) as Hv
      by (vm_compute; split; [discriminate | reflexivity]).
  assert (1 <= 18 <= 31) as Hw by (vm_compute; split; discriminate).
  split; [exact Hv |]. split; [exact Hw |].
  apply (proj2 (clamp_overflow_identity_iff (-131072) 18 Hv Hw)).
  vm_compute. split; [discriminate | reflexivity].
Defined.

(** Clamping a clamped value changes nothing. *)
Theorem clamp_overflow_idempotent (v w r : Z) :
  is_int64 v -> 1 <= w <= 31 ->
  clamp_overflow v w = Ret r -> clamp_overflow r w = Ret r.
Proof.
  intros Hv Hw Hr.
  destruct (pow2_double w ltac:(lia)) as [Hd Hp].
  apply (clamp_returns_in_range v w r Hv Hw) in Hr.
  now apply clamp_in_range.
Qed.

Lemma clamp_overflow_idempotent_witness :
  is_int64 200000 /\ 1 <= 18 <= 31 /\
  clamp_overflow 200000 18 = Ret 131071 /\
  clamp_overflow 131071 18 = Ret 131071.
Proof.
  assert (is_int64 200000) as Hv
      by (vm_compute; split; [discriminate | reflexivity]).
  assert (1 <= 18 <= 31) as Hw by (vm_compute; split; discriminate).
  assert (clamp_overflow 200000 18 = Ret 131071) as Hr by reflexivity.
  split; [exact Hv |]. split; [exact Hw |]. split; [exact Hr |].
  exact (clamp_overflow_idempotent 200000 18 131071 Hv Hw Hr).
Defined.

End ClampGeneral.

(** * The polynomials at every folded argument *)

Module FastSpec.

Import Uint63.

Local Abbreviation phi := Uint63.to_Z.

Lemma wB_value : Uint63.wB = 9223372036854775808.
Proof. reflexivity. Qed.

Lemma mulshr63 a b k A B :
  phi a <= A -> phi b <= B -> (A * B <? 2 ^ 63) = true ->
  phi (PrimInt63.lsr (PrimInt63.mul a b) k) = ushr (umul (phi a) (phi b)) (phi k).
Proof.
  intros Ha Hb HAB. apply Z.ltb_lt in HAB.
  pose proof (Uint63.to_Z_bounded a) as Ba.
  pose proof (Uint63.to_Z_bounded b) as Bb.
  pose proof (Uint63.to_Z_bounded k) as Bk.
  assert (0 <= phi a * phi b <= A * B) as Hab by nia.
  rewrite Uint63.lsr_spec, Uint63.mul_spec, wB_value.
  change (2 ^ 63) with 9223372036854775808 in HAB.
  rewrite Z.mod_small by lia.
  unfold ushr, umul. rewrite u64_small
    by (change (2 ^ 64) with 18446744073709551616; lia).
  now rewrite Z.shiftr_div_pow2 by lia.
Qed.


Lemma mulshr63_step a b k za zb n A B C :
  phi a = za -> phi b = zb -> phi k = n ->
  0 <= za <= A -> 0 <= zb <= B ->
  (A * B <? 2 ^ 63) = true -> ((A * B) / 2 ^ n <=? C) = true ->
  phi (PrimInt63.lsr (PrimInt63.mul a b) k) = ushr (umul za zb) n /\
  0 <= ushr (umul za zb) n <= C.
Proof.
  intros Ea Eb Ek Ha Hb HAB HC. subst za zb n.
  pose proof (Uint63.to_Z_bounded k) as Bk.
  split.
  - apply mulshr63 with (A := A) (B := B); lia.
  - assert ((A * B <? 2 ^ 64) = true) as HAB'.
    { apply Z.ltb_lt in HAB. apply Z.ltb_lt.
      change (2 ^ 63) with 9223372036854775808 in HAB.
      change (2 ^ 64) with 18446744073709551616. lia. }
    apply mulshr_bound with (A := A) (B := B); try assumption; lia.
Qed.

Lemma add63 a b :
  phi a + phi b < 9223372036854775808 ->
  phi (PrimInt63.add a b) = phi a + phi b.
Proof.
  intros H. rewrite Uint63.add_spec, wB_value.
  pose proof (Uint63.to_Z_bounded a). pose proof (Uint63.to_Z_bounded b).
  apply Z.mod_small. lia.
Qed.

Lemma sub63 a b :
  phi b <= phi a -> phi (PrimInt63.sub a b) = phi a - phi b.
Proof.
  intros H. rewrite Uint63.sub_spec.
  pose proof (Uint63.to_Z_bounded a). pose proof (Uint63.to_Z_bounded b).
  rewrite wB_value in *. apply Z.mod_small. lia.
Qed.

Lemma mul63 a b :
  phi a * phi b < 9223372036854775808 ->
  phi (PrimInt63.mul a b) = phi a * phi b.
Proof.
  intros H. rewrite Uint63.mul_spec, wB_value.
  pose proof (Uint63.to_Z_bounded a). pose proof (Uint63.to_Z_bounded b).
  apply Z.mod_small. nia.
Qed.

Lemma leb63 a b : PrimInt63.leb a b = (phi a <=? phi b).
Proof.
  destruct (PrimInt63.leb a b) eqn:E; symmetry.
  - apply Z.leb_le. now apply Uint63.leb_spec.
  - apply Z.leb_gt. apply Z.nle_gt. intros H.
    apply Uint63.leb_spec in H. congruence.
Qed.

Lemma sine_poly63_spec X :
  phi X <= 262143 ->
  phi (Fast.sine_poly63 X) = sine_poly (phi X) + 524288.
Proof.
  intros HX. pose proof (Uint63.to_Z_bounded X) as BX.
  unfold Fast.sine_poly63, sine_poly, Sine.k1, Sine.k3, Sine.k5, Sine.k7.
  set (x := phi X) in *.
  destruct (mulshr63_step X X 18%uint63 x x 18 262143 262143 262143)
    as [E2 H2]; try reflexivity; try lia.
  set (i2 := PrimInt63.lsr (PrimInt63.mul X X) 18%uint63) in *.
  set (x2 := ushr (umul x x) 18) in *.
  destruct (mulshr63_step i2 X 18%uint63 x2 x 18 262143 262143 262143)
    as [E3 H3]; try reflexivity; try lia.
  set (i3 := PrimInt63.lsr (PrimInt63.mul i2 X) 18%uint63) in *.
  set (x3 := ushr (umul x2 x) 18) in *.
  destruct (mulshr63_step i2 i3 18%uint63 x2 x3 18 262143 262143 262143)
    as [E5 H5]; try reflexivity; try lia.
  set (i5 := PrimInt63.lsr (PrimInt63.mul i2 i3) 18%uint63) in *.
  set (x5 := ushr (umul x2 x3) 18) in *.
  destruct (mulshr63_step i2 i5 18%uint63 x2 x5 18 262143 262143 262143)
    as [E7 H7]; try reflexivity; try lia.
  set (i7 := PrimInt63.lsr (PrimInt63.mul i2 i5) 18%uint63) in *.
  set (x7 := ushr (umul x2 x5) 18) in *.
  destruct (mulshr63_step 205887%uint63 X 17%uint63 205887 x 17
              205887 262143 411772) as [F1 K1]; try reflexivity; try lia.
  destruct (mulshr63_step 169336%uint63 i3 18%uint63 169336 x3 18
              169336 262143 169335) as [F3 K3]; try reflexivity; try lia.
  destruct (mulshr63_step 167014%uint63 i5 21%uint63 167014 x5 21
              167014 262143 20876) as [F5 K5]; try reflexivity; try lia.
  destruct (mulshr63_step 150000%uint63 i7 25%uint63 150000 x7 25
              150000 262143 1171) as [F7 K7]; try reflexivity; try lia.
  revert F1 F3 F5 F7 K1 K3 K5 K7.
  generalize (ushr (umul 205887 x) 17) (ushr (umul 169336 x3) 18)
             (ushr (umul 167014 x5) 21) (ushr (umul 150000 x7) 25).
  generalize (PrimInt63.lsr (PrimInt63.mul 205887%uint63 X) 17%uint63)
             (PrimInt63.lsr (PrimInt63.mul 169336%uint63 i3) 18%uint63)
             (PrimInt63.lsr (PrimInt63.mul 167014%uint63 i5) 21%uint63)
             (PrimInt63.lsr (PrimInt63.mul 150000%uint63 i7) 25%uint63).
  intros j1 j3 j5 j7 z1 z3 z5 z7 F1 F3 F5 F7 K1 K3 K5 K7.
  rewrite s64_alternating, s64_small
    by (unfold is_int64; change (2 ^ 63) with 9223372036854775808; lia).
  assert (phi (PrimInt63.add j1 j5) = z1 + z5) as A1
      by (rewrite add63; lia).
  assert (phi (PrimInt63.add (PrimInt63.add j1 j5) 1048576%uint63)
          = z1 + z5 + 1048576) as A2
      by (rewrite add63; rewrite A1; change (phi 1048576%uint63) with 1048576;
          lia).
  assert (phi (PrimInt63.sub
                 (PrimInt63.add (PrimInt63.add j1 j5) 1048576%uint63) j3)
          = z1 + z5 + 1048576 - z3) as A3
      by (rewrite sub63; rewrite A2; lia).
  assert (phi (PrimInt63.sub
                 (PrimInt63.sub
                    (PrimInt63.add (PrimInt63.add j1 j5) 1048576%uint63) j3)
                 j7)
          = z1 + z5 + 1048576 - z3 - z7) as A4
      by (rewrite sub63; rewrite A3; lia).
  rewrite Uint63.lsr_spec, A4.
  change (phi 1%uint63) with 1.
  rewrite Z.shiftr_div_pow2 by lia. change (2 ^ 1) with 2.
  Z.div_mod_to_equations. lia.
Qed.

Lemma cosine_poly63_spec X :
  phi X <= 262143 ->
  phi (Fast.cosine_poly63 X) = cosine_poly (phi X) + 524288.
Proof.
  intros HX. pose proof (Uint63.to_Z_bounded X) as BX.
  unfold Fast.cosine_poly63, cosine_poly,
    Cosine.k2, Cosine.k4, Cosine.k6, Cosine.k8.
  set (x := phi X) in *.
  destruct (mulshr63_step X X 18%uint63 x x 18 262143 262143 262143)
    as [E2 H2]; try reflexivity; try lia.
  set (i2 := PrimInt63.lsr (PrimInt63.mul X X) 18%uint63) in *.
  set (x2 := ushr (umul x x) 18) in *.
  destruct (mulshr63_step i2 i2 18%uint63 x2 x2 18 262143 262143 262143)
    as [E4 H4]; try reflexivity; try lia.
  set (i4 := PrimInt63.lsr (PrimInt63.mul i2 i2) 18%uint63) in *.
  set (x4 := ushr (umul x2 x2) 18) in *.
  destruct (mulshr63_step i4 i2 18%uint63 x4 x2 18 262143 262143 262143)
    as [E6 H6]; try reflexivity; try lia.
  set (i6 := PrimInt63.lsr (PrimInt63.mul i4 i2) 18%uint63) in *.
  set (x6 := ushr (umul x4 x2) 18) in *.
  destruct (mulshr63_step i4 i4 18%uint63 x4 x4 18 262143 262143 262143)
    as [E8 H8]; try reflexivity; try lia.
  set (i8 := PrimInt63.lsr (PrimInt63.mul i4 i4) 18%uint63) in *.
  set (x8 := ushr (umul x4 x4) 18) in *.
  destruct (mulshr63_step 161704%uint63 i2 17%uint63 161704 x2 17
              161704 262143 323406) as [F2 K2]; try reflexivity; try lia.
  destruct (mulshr63_step 132996%uint63 i4 19%uint63 132996 x4 19
              132996 262143 66497) as [F4 K4]; try reflexivity; try lia.
  destruct (mulshr63_step 175016%uint63 i6 23%uint63 175016 x6 23
              175016 262143 5469) as [F6 K6]; try reflexivity; try lia.
  destruct (mulshr63_step 241700%uint63 i8 28%uint63 241700 x8 28
              241700 262143 236) as [F8 K8]; try reflexivity; try lia.
  revert F2 F4 F6 F8 K2 K4 K6 K8.
  generalize (ushr (umul 161704 x2) 17) (ushr (umul 132996 x4) 19)
             (ushr (umul 175016 x6) 23) (ushr (umul 241700 x8) 28).
  generalize (PrimInt63.lsr (PrimInt63.mul 161704%uint63 i2) 17%uint63)
             (PrimInt63.lsr (PrimInt63.mul 132996%uint63 i4) 19%uint63)
             (PrimInt63.lsr (PrimInt63.mul 175016%uint63 i6) 23%uint63)
             (PrimInt63.lsr (PrimInt63.mul 241700%uint63 i8) 28%uint63).
  intros j2 j4 j6 j8 z2 z4 z6 z8 F2 F4 F6 F8 K2 K4 K6 K8.
  change (Z.shiftl 1 18) with 262144.
  rewrite s64_alternating5, s64_small
    by (unfold is_int64; change (2 ^ 63) with 9223372036854775808; lia).
  assert (phi (PrimInt63.add 262144%uint63 j4) = 262144 + z4) as A1
      by (rewrite add63; change (phi 262144%uint63) with 262144; lia).
  assert (phi (PrimInt63.add (PrimInt63.add 262144%uint63 j4) j8)
          = 262144 + z4 + z8) as A2
      by (rewrite add63; rewrite A1; lia).
  assert (phi (PrimInt63.add
                 (PrimInt63.add (PrimInt63.add 262144%uint63 j4) j8)
                 1048576%uint63)
          = 262144 + z4 + z8 + 1048576) as A3
      by (rewrite add63; rewrite A2; change (phi 1048576%uint63) with 1048576;
          lia).
  assert (phi (PrimInt63.sub
                 (PrimInt63.add
                    (PrimInt63.add (PrimInt63.add 262144%uint63 j4) j8)
                    1048576%uint63) j2)
          = 262144 + z4 + z8 + 1048576 - z2) as A4
      by (rewrite sub63; rewrite A3; lia).
  assert (phi (PrimInt63.sub
                 (PrimInt63.sub
                    (PrimInt63.add
                       (PrimInt63.add (PrimInt63.add 262144%uint63 j4) j8)
                       1048576%uint63) j2) j6)
          = 262144 + z4 + z8 + 1048576 - z2 - z6) as A5
      by (rewrite sub63; rewrite A4; lia).
  rewrite Uint63.lsr_spec, A5.
  change (phi 1%uint63) with 1.
  rewrite Z.shiftr_div_pow2 by lia. change (2 ^ 1) with 2.
  Z.div_mod_to_equations. lia.
Qed.

Lemma sat63_spec a : phi (Fast.sat63 a) = Z.min (phi a) 131071.
Proof.
  unfold Fast.sat63. rewrite leb63.
  change (phi 131072%uint63) with 131072.
  destruct (Z.leb_spec 131072 (phi a)).
  - change (phi 131071%uint63) with 131071. lia.
  - lia.
Qed.

Lemma unit63_spec a b :
  phi a <= 131072 -> phi b <= 131072 ->
  Fast.unit63 a b = true ->
  -524288 <= phi a * phi a + phi b * phi b - 2 ^ 34 <= 524288.
Proof.
  intros Ha Hb H.
  pose proof (Uint63.to_Z_bounded a) as Ba.
  pose proof (Uint63.to_Z_bounded b) as Bb.
  assert (0 <= phi a * phi a <= 131072 * 131072) as Haa by nia.
  assert (0 <= phi b * phi b <= 131072 * 131072) as Hbb by nia.
  unfold Fast.unit63 in H. cbv zeta in H.
  rewrite !leb63, add63, !mul63 in H by (rewrite ?mul63; lia).
  change (phi 17179344896%uint63) with 17179344896 in H.
  change (phi 17180393472%uint63) with 17180393472 in H.
  apply andb_true_iff in H. destruct H as [H1 H2].
  apply Z.leb_le in H1, H2.
  change (2 ^ 34) with 17179869184. lia.
Qed.

Lemma check63_sound X :
  phi X <= 262143 -> Fast.check63 X = true -> poly_facts (phi X).
Proof.
  intros HX Hc. pose proof (Uint63.to_Z_bounded X) as BX.
  pose proof (sine_poly63_spec X HX) as ES.
  pose proof (cosine_poly63_spec X HX) as EC.
  unfold Fast.check63 in Hc. cbv zeta in Hc.
  apply andb_true_iff in Hc. destruct Hc as [Hc U4].
  apply andb_true_iff in Hc. destruct Hc as [Hc U3].
  apply andb_true_iff in Hc. destruct Hc as [Hc U2].
  apply andb_true_iff in Hc. destruct Hc as [Hc U1].
  apply andb_true_iff in Hc. destruct Hc as [Hc P].
  apply andb_true_iff in Hc. destruct Hc as [Hc C2].
  apply andb_true_iff in Hc. destruct Hc as [Hc C1].
  apply andb_true_iff in Hc. destruct Hc as [Hc S2].
  apply andb_true_iff in Hc. destruct Hc as [Hc S1].
  apply andb_true_iff in Hc. destruct Hc as [Hc R4].
  apply andb_true_iff in Hc. destruct Hc as [Hc R3].
  apply andb_true_iff in Hc. destruct Hc as [R1 R2].
  rewrite leb63 in R1, R2, R3, R4.
  apply Z.leb_le in R1, R2, R3, R4.
  rewrite ES in R1, R2. rewrite EC in R3, R4.
  change (phi 524288%uint63) with 524288 in R1.
  change (phi 655360%uint63) with 655360 in R2, R4.
  change (phi 524289%uint63) with 524289 in R3.
  assert (phi (PrimInt63.sub (Fast.sine_poly63 X) 524288%uint63)
          = sine_poly (phi X)) as Ea
      by (rewrite sub63; rewrite ES; change (phi 524288%uint63) with 524288;
          lia).
  assert (phi (PrimInt63.sub (Fast.cosine_poly63 X) 524288%uint63)
          = cosine_poly (phi X)) as Eb
      by (rewrite sub63; rewrite EC; change (phi 524288%uint63) with 524288;
          lia).
  apply unit63_spec in U1, U2, U3, U4;
    rewrite ?sat63_spec, ?Ea, ?Eb in *; try lia.
  split; [lia |]. split; [lia |]. split; [| split].
  - intros Hlt.
    assert (PrimInt63.leb 262143%uint63 X = false) as Ey0
        by (rewrite leb63; change (phi 262143%uint63) with 262143;
            apply Z.leb_gt; lia).
    rewrite Ey0 in S1, S2, C1, C2.
    assert (phi (PrimInt63.add X 1%uint63) = phi X + 1) as Ey
        by (rewrite add63; change (phi 1%uint63) with 1; lia).
    pose proof (sine_poly63_spec (PrimInt63.add X 1%uint63)) as ESy.
    pose proof (cosine_poly63_spec (PrimInt63.add X 1%uint63)) as ECy.
    rewrite Ey in ESy, ECy.
    specialize (ESy ltac:(lia)). specialize (ECy ltac:(lia)).
    pose proof (sine_poly_range (phi X + 1) ltac:(lia)) as Qs.
    pose proof (cosine_poly_range (phi X + 1) ltac:(lia)) as Qc.
    rewrite leb63 in S1, S2, C1, C2.
    apply Z.leb_le in S1, S2, C1, C2.
    rewrite add63 in S1, S2, C1, C2
        by (rewrite ?ES, ?EC, ?ESy, ?ECy;
            change (phi 1%uint63) with 1; change (phi 2%uint63) with 2; lia).
    rewrite ?ES, ?EC, ?ESy, ?ECy in S1, S2, C1, C2.
    change (phi 1%uint63) with 1 in *. change (phi 2%uint63) with 2 in *.
    lia.
  - intros Hpos.
    assert (PrimInt63.leb X 0%uint63 = false) as Em0
        by (rewrite leb63; change (phi 0%uint63) with 0;
            apply Z.leb_gt; lia).
    rewrite Em0 in P. cbn [orb] in P.
    assert (phi (PrimInt63.sub 262144%uint63 X) = 262144 - phi X) as Em
        by (rewrite sub63; change (phi 262144%uint63) with 262144; lia).
    pose proof (sine_poly63_spec (PrimInt63.sub 262144%uint63 X)) as ESm.
    rewrite Em in ESm. specialize (ESm ltac:(lia)).
    pose proof (sine_poly_range (262144 - phi X) ltac:(lia)) as Qs.
    apply andb_true_iff in P. destruct P as [P1 P2].
    rewrite leb63 in P1, P2.
    apply Z.leb_le in P1, P2.
    rewrite add63 in P1, P2
        by (rewrite ?ES, ?EC, ?ESm; change (phi 2%uint63) with 2; lia).
    rewrite ?ES, ?EC, ?ESm in P1, P2.
    change (phi 2%uint63) with 2 in *.
    lia.
  - intros a b [-> | ->] [-> | ->]; assumption.
Qed.

Lemma all_from_sound d f :
  forall base,
    all_from d base f = true ->
    forall x, base <= x < base + 2 ^ Z.of_nat d -> f x = true.
Proof.
  induction d as [| d IH]; intros base H x Hx.
  - cbn in H. change (2 ^ Z.of_nat 0) with 1 in Hx.
    now replace x with base by lia.
  - cbn [all_from] in H. apply andb_true_iff in H. destruct H as [Hl Hr].
    rewrite Z.shiftl_1_l in Hr.
    rewrite Nat2Z.inj_succ, Z.pow_succ_r in Hx by lia.
    destruct (Z_lt_le_dec x (base + 2 ^ Z.of_nat d)).
    + apply (IH base Hl). lia.
    + apply (IH _ Hr). lia.
Qed.

Lemma check63_all :
  all_from 18 0 (fun x => Fast.check63 (Uint63.of_Z x)) = true.
Proof. vm_compute. reflexivity. Qed.

Lemma poly_facts_all x : 0 <= x <= 262143 -> poly_facts x.
Proof.
  intros Hx.
  assert (phi (Uint63.of_Z x) = x) as Ex.
  { rewrite Uint63.of_Z_spec, wB_value. apply Z.mod_small. lia. }
  rewrite <- Ex. apply check63_sound; [lia |].
  apply (all_from_sound 18 _ 0 check63_all).
  change (2 ^ Z.of_nat 18) with 262144. lia.
Qed.

End FastSpec.

(** * The results by quadrant *)

Section Quadrants.

Lemma poly_bounds x :
  0 <= x <= 262143 ->
  0 <= sine_poly x <= 131072 /\ 1 <= cosine_poly x <= 131072.
Proof.
  intros Hx. destruct (FastSpec.poly_facts_all x Hx) as (Hs & Hc & _).
  auto.
Qed.

Lemma poly_step x :
  0 <= x < 262143 ->
  -1 <= sine_poly (x + 1) - sine_poly x <= 2 /\
  -2 <= cosine_poly (x + 1) - cosine_poly x <= 1.
Proof.
  intros Hx.
  destruct (FastSpec.poly_facts_all x ltac:(lia)) as (_ & _ & Hst & _).
  apply Hst. lia.
Qed.

Lemma poly_phase x :
  0 < x <= 262143 ->
  -2 <= sine_poly (262144 - x) - cosine_poly x <= 2.
Proof.
  intros Hx.
  destruct (FastSpec.poly_facts_all x ltac:(lia)) as (_ & _ & _ & Hph & _).
  apply Hph. lia.
Qed.

Lemma poly_unit x a b :
  0 <= x <= 262143 ->
  a = sine_poly x \/ a = Z.min (sine_poly x) 131071 ->
  b = cosine_poly x \/ b = Z.min (cosine_poly x) 131071 ->
  -524288 <= a * a + b * b - 2 ^ 34 <= 524288.
Proof.
  intros Hx.
  destruct (FastSpec.poly_facts_all x Hx) as (_ & _ & _ & _ & Hu).
  apply Hu.
Qed.

Lemma split_quadrant v :
  0 <= v < 2 ^ 20 ->
  exists q r, v = q * 262144 + r /\ 0 <= q <= 3 /\ 0 <= r <= 262143.
Proof.
  intros Hv. change (2 ^ 20) with 1048576 in Hv.
  exists (v / 262144), (v mod 262144).
  Z.div_mod_to_equations. lia.
Qed.

Lemma decode_quadrant q r :
  0 <= r <= 262143 ->
  get_high0 (q * 262144 + r) = Z.odd (q / 2) /\
  get_high1 (q * 262144 + r) = Z.odd q /\
  fold_x1 (q * 262144 + r) =
  if Z.odd q then (if r =? 0 then 0 else 262144 - r) else r.
Proof.
  intros Hr.
  rewrite get_high0_bit, get_high1_bit, fold_x1_eq, !Z.testbit_odd.
  rewrite (shiftr_eq (q * 262144 + r) 18 q)
    by (change (2 ^ 18) with 262144; lia).
  rewrite (shiftr_eq (q * 262144 + r) 19 (q / 2))
    by (change (2 ^ 19) with 524288; try lia;
        Z.div_mod_to_equations; lia).
  assert ((q * 262144 + r) mod 2 ^ 18 = r) as ->.
  { symmetry. apply Z.mod_unique_pos with (q := q);
      change (2 ^ 18) with 262144; lia. }
  split; [reflexivity |]. split; [reflexivity |].
  destruct (Z.odd q); [| reflexivity].
  destruct (Z.eqb_spec r 0) as [-> | Hne]; [reflexivity |].
  apply Z.mod_small. change (2 ^ 18) with 262144. lia.
Qed.

Lemma sums_quadrant q r :
  0 <= q <= 3 -> 0 <= r <= 262143 ->
  sine_sum (q * 262144 + r) = sine_quadrant q r /\
  cosine_sum (q * 262144 + r) = cosine_quadrant q r.
Proof.
  intros Hq Hr.
  rewrite sine_sum_eq, cosine_sum_eq. unfold sine_base, cosine_base.
  destruct (decode_quadrant q r Hr) as (-> & -> & ->).
  change (Z.shiftl 1 17) with 131072.
  assert (q = 0 \/ q = 1 \/ q = 2 \/ q = 3) as Hc by lia.
  assert (r = 0 \/ 0 < r) as [-> | Hpos] by lia.
  - destruct Hc as [-> | [-> | [-> | ->]]]; split; reflexivity.
  - assert ((r =? 0) = false) as E by (apply Z.eqb_neq; lia).
    assert ((262144 - r =? 0) = false) as E' by (apply Z.eqb_neq; lia).
    destruct Hc as [-> | [-> | [-> | ->]]];
      cbv beta iota delta [sine_quadrant cosine_quadrant];
      [ change (Z.odd (0 / 2)) with false; change (Z.odd 0) with false
      | change (Z.odd (1 / 2)) with false; change (Z.odd 1) with true
      | change (Z.odd (2 / 2)) with true; change (Z.odd 2) with false
      | change (Z.odd (3 / 2)) with true; change (Z.odd 3) with true ];
      rewrite ?E, ?E'; cbn [xorb andb];
      rewrite ?andb_false_r; split; reflexivity.
Qed.

(** The sums never leave [[-2^17, 2^17]]. *)
Lemma quadrant_range q r :
  0 <= q <= 3 -> 0 <= r <= 262143 ->
  -131072 <= sine_quadrant q r <= 131072 /\
  -131072 <= cosine_quadrant q r <= 131072.
Proof.
  intros Hq Hr.
  pose proof (poly_bounds r Hr) as Br.
  assert (r = 0 \/ 0 < r) as [-> | Hpos] by lia.
  - assert (q = 0 \/ q = 1 \/ q = 2 \/ q = 3) as Hc by lia.
    destruct Hc as [-> | [-> | [-> | ->]]];
      cbv beta iota delta [sine_quadrant cosine_quadrant];
      rewrite ?Z.eqb_refl; lia.
  - pose proof (poly_bounds (262144 - r) ltac:(lia)) as Bm.
    assert (q = 0 \/ q = 1 \/ q = 2 \/ q = 3) as Hc by lia.
    destruct Hc as [-> | [-> | [-> | ->]]];
      cbv beta iota delta [sine_quadrant cosine_quadrant];
      destruct (Z.eqb_spec r 0); lia.
Qed.

Lemma saturate18_min s :
  -131072 <= s -> saturate18 s = Z.min s 131071.
Proof.
  intros Hs. unfold saturate18.
  destruct (Z.ltb_spec s (-131072)); [lia |].
  destruct (Z.ltb_spec 131071 s); lia.
Qed.

Lemma results_quadrant q r :
  0 <= q <= 3 -> 0 <= r <= 262143 ->
  sine (q * 262144 + r) = Ret (Z.min (sine_quadrant q r) 131071) /\
  cosine (q * 262144 + r) = Ret (Z.min (cosine_quadrant q r) 131071).
Proof.
  intros Hq Hr.
  destruct (sums_quadrant q r Hq Hr) as [Es Ec].
  destruct (quadrant_range q r Hq Hr) as [Bs Bc].
  rewrite sine_eq, cosine_eq, Es, Ec.
  rewrite !saturate18_min by lia. auto.
Qed.

End Quadrants.

(** * Properties of the results over the whole turn *)

(** Case analysis on the quadrant [q] and on [r = 0], with the bounds of
    the polynomials at [r] and at the mirrored argument. *)
Ltac by_quadrant q r Hq Hr :=
  let Hc := fresh "Hc" in
  let Br := fresh "Br" in
  let Bm := fresh "Bm" in
  let E := fresh "E" in
  let Hpos := fresh "Hpos" in
  assert (q = 0 \/ q = 1 \/ q = 2 \/ q = 3) as Hc by lia;
  pose proof (poly_bounds r Hr) as Br;
  assert (r = 0 \/ 0 < r) as [-> | Hpos] by lia;
  [ destruct Hc as [-> | [-> | [-> | ->]]];
    cbv beta iota delta [sine_quadrant cosine_quadrant] in *;
    rewrite ?Z.eqb_refl in *
  | pose proof (poly_bounds (262144 - r) ltac:(lia)) as Bm;
    assert ((r =? 0) = false) as E by (apply Z.eqb_neq; lia);
    destruct Hc as [-> | [-> | [-> | ->]]];
    cbv beta iota delta [sine_quadrant cosine_quadrant] in *;
    rewrite ?E in * ].

(** For every 20-bit argument the sum handed to the clamp lies in
    [[-2^17, 2^17]]: the clamp changes it only when it is exactly [2^17],
    which becomes [2^17 - 1], and the saturation to the minimum is never
    used. *)
Theorem sincos_sum_range (v : Z) :
  0 <= v < 2 ^ 20 ->
  -131072 <= sine_sum v <= 131072 /\
  -131072 <= cosine_sum v <= 131072 /\
  sine v = Ret (Z.min (sine_sum v) 131071) /\
  cosine v = Ret (Z.min (cosine_sum v) 131071).
Proof.
  intros Hv. destruct (split_quadrant v Hv) as (q & r & -> & Hq & Hr).
  destruct (sums_quadrant q r Hq Hr) as [-> ->].
  destruct (results_quadrant q r Hq Hr) as [-> ->].
  destruct (quadrant_range q r Hq Hr) as [Bs Bc].
  auto.
Qed.

Lemma sincos_sum_range_witness :
  0 <= 262144 < 2 ^ 20 /\
  -131072 <= sine_sum 262144 <= 131072 /\
  -131072 <= cosine_sum 262144 <= 131072 /\
  sine 262144 = Ret (Z.min (sine_sum 262144) 131071) /\
  cosine 262144 = Ret (Z.min (cosine_sum 262144) 131071).
Proof.
  split; [vm_compute; split; [discriminate | reflexivity] |].
  apply (sincos_sum_range 262144).
  vm_compute; split; [discriminate | reflexivity].
Defined.

(** [sine] is non-negative on the first half turn and non-positive on the
    second. *)
Theorem sine_sign (v : Z) :
  0 <= v < 2 ^ 20 ->
  exists s, sine v = Ret s /\
            (v <= 2 ^ 19 -> 0 <= s) /\ (2 ^ 19 <= v -> s <= 0).
Proof.
  intros Hv. destruct (split_quadrant v Hv) as (q & r & -> & Hq & Hr).
  destruct (results_quadrant q r Hq Hr) as [-> _].
  eexists. split; [reflexivity |].
  change (2 ^ 19) with 524288.
  assert (sine_poly 0 = 0) as S0 by reflexivity.
  by_quadrant q r Hq Hr; rewrite ?S0; lia.
Qed.

Lemma sine_sign_witness :
  0 <= 700000 < 2 ^ 20 /\
  exists s, sine 700000 = Ret s /\
            (700000 <= 2 ^ 19 -> 0 <= s) /\ (2 ^ 19 <= 700000 -> s <= 0).
Proof.
  split; [vm_compute; split; [discriminate | reflexivity] |].
  apply (sine_sign 700000).
  vm_compute; split; [discriminate | reflexivity].
Defined.

(** [cosine] is strictly positive on the open first and fourth quadrants,
    strictly negative on the open second and third, and returns [0] at
    the two quarter-turn boundaries only. *)
Theorem cosine_sign (v : Z) :
  0 <= v < 2 ^ 20 ->
  exists c, cosine v = Ret c /\
            (v < 2 ^ 18 \/ 3 * 2 ^ 18 < v -> 0 < c) /\
            (2 ^ 18 < v < 3 * 2 ^ 18 -> c < 0) /\
            (c = 0 <-> v = 2 ^ 18 \/ v = 3 * 2 ^ 18).
Proof.
  intros Hv. destruct (split_quadrant v Hv) as (q & r & -> & Hq & Hr).
  destruct (results_quadrant q r Hq Hr) as [_ ->].
  eexists. split; [reflexivity |].
  change (2 ^ 18) with 262144.
  by_quadrant q r Hq Hr; lia.
Qed.

Lemma cosine_sign_witness :
  0 <= 786432 < 2 ^ 20 /\
  exists c, cosine 786432 = Ret c /\
            (786432 < 2 ^ 18 \/ 3 * 2 ^ 18 < 786432 -> 0 < c) /\
            (2 ^ 18 < 786432 < 3 * 2 ^ 18 -> c < 0) /\
            (c = 0 <-> 786432 = 2 ^ 18 \/ 786432 = 3 * 2 ^ 18).
Proof.
  split; [vm_compute; split; [discriminate | reflexivity] |].
  apply (cosine_sign 786432).
  vm_compute; split; [discriminate | reflexivity].
Defined.

Lemma unit_signed x s c :
  0 <= x <= 262143 ->
  s = Z.min (sine_poly x) 131071 \/ s = - sine_poly x ->
  c = Z.min (cosine_poly x) 131071 \/ c = - cosine_poly x ->
  -524288 <= s * s + c * c - 2 ^ 34 <= 524288.
Proof.
  intros Hx Hs Hc.
  pose proof (fun a b => poly_unit x a b Hx) as Hu.
  revert Hs Hc Hu. generalize (sine_poly x) (cosine_poly x).
  intros S C Hs Hc Hu.
  destruct Hs as [-> | ->], Hc as [-> | ->].
  - apply Hu; auto.
  - replace (- C * - C) with (C * C) by ring. apply Hu; auto.
  - replace (- S * - S) with (S * S) by ring. apply Hu; auto.
  - replace (- S * - S) with (S * S) by ring.
    replace (- C * - C) with (C * C) by ring. apply Hu; auto.
Qed.

(** The results satisfy [sine^2 + cosine^2 = 1] up to [2^19] at scale
    [2^34], a relative error below [2^-15]. *)
Theorem sincos_pythagoras (v : Z) :
  0 <= v < 2 ^ 20 ->
  exists s c,
    sine v = Ret s /\ cosine v = Ret c /\
    - 2 ^ 19 <= s * s + c * c - 2 ^ 34 <= 2 ^ 19.
Proof.
  intros Hv. destruct (split_quadrant v Hv) as (q & r & -> & Hq & Hr).
  destruct (results_quadrant q r Hq Hr) as [-> ->].
  eexists. eexists. split; [reflexivity |]. split; [reflexivity |].
  change (2 ^ 19) with 524288.
  by_quadrant q r Hq Hr;
    [ vm_compute; split; discriminate
    | vm_compute; split; discriminate
    | vm_compute; split; discriminate
    | vm_compute; split; discriminate
    | apply (unit_signed r)
    | apply (unit_signed (262144 - r))
    | apply (unit_signed r)
    | apply (unit_signed (262144 - r)) ];
    solve [ lia | left; lia | right; lia ].
Qed.

Lemma sincos_pythagoras_witness :
  0 <= 123456 < 2 ^ 20 /\
  exists s c,
    sine 123456 = Ret s /\ cosine 123456 = Ret c /\
    - 2 ^ 19 <= s * s + c * c - 2 ^ 34 <= 2 ^ 19.
Proof.
  split; [vm_compute; split; [discriminate | reflexivity] |].
  apply (sincos_pythagoras 123456).
  vm_compute; split; [discriminate | reflexivity].
Defined.

(** Flipping bit 19 negates the result of [cosine] as well, with the same
    exception as for [sine]: when one of the two results is [-131072] the
    other one is the saturated [131071]. *)
Theorem cosine_flip_high0 (v : Z) :
  0 <= v < 2 ^ 20 ->
  exists c c',
    cosine v = Ret c /\ cosine (Z.lxor v (2 ^ 19)) = Ret c' /\
    (c <> -131072 -> c' <> -131072 -> c' = neg_s64 c) /\
    (c = -131072 -> c' = 131071) /\
    (c' = -131072 -> c = 131071).
Proof.
  intros _.
  exists (saturate18 (cosine_sum v)),
         (saturate18 (cosine_sum (Z.lxor v (2 ^ 19)))).
  split; [apply cosine_eq |]. split; [apply cosine_eq |].
  pose proof (saturate18_range (cosine_sum v)) as Hr.
  rewrite neg_s64_small by lia.
  rewrite !cosine_sum_eq.
  destruct (decode_flip19 v) as (H0 & H1 & Hx).
  assert (cosine_base (Z.lxor v (2 ^ 19)) = cosine_base v) as ->
      by (unfold cosine_base; now rewrite H1, Hx).
  rewrite H0, H1.
  pose proof (cosine_base_range v) as Hb.
  clear Hr. generalize (cosine_base v) Hb. intros b Hb'.
  unfold saturate18.
  destruct (get_high0 v), (get_high1 v); cbn [negb xorb];
    repeat match goal with
           | |- context [?a <? ?b] => destruct (Z.ltb_spec a b)
           end; lia.
Qed.

Lemma cosine_flip_high0_witness :
  0 <= 100000 < 2 ^ 20 /\
  exists c c',
    cosine 100000 = Ret c /\ cosine (Z.lxor 100000 (2 ^ 19)) = Ret c' /\
    (c <> -131072 -> c' <> -131072 -> c' = neg_s64 c) /\
    (c = -131072 -> c' = 131071) /\
    (c' = -131072 -> c = 131071).
Proof.
  split; [vm_compute; split; [discriminate | reflexivity] |].
  apply (cosine_flip_high0 100000).
  vm_compute; split; [discriminate | reflexivity].
Defined.

Section Symmetry.

Lemma sums_mod v :
  sine_sum (v mod 2 ^ 20) = sine_sum v /\
  cosine_sum (v mod 2 ^ 20) = cosine_sum v.
Proof.
  destruct (decode_mod v) as (H0 & H1 & Hx).
  unfold sine_sum, cosine_sum. now rewrite H0, H1, Hx.
Qed.

(** The sums at [q * 2^18 + r] for [q = 4], one full turn on. *)
Lemma sums_full_turn r :
  0 <= r <= 262143 ->
  sine_sum (4 * 262144 + r) = sine_quadrant 0 r /\
  cosine_sum (4 * 262144 + r) = cosine_quadrant 0 r.
Proof.
  intros Hr.
  destruct (sums_mod (4 * 262144 + r)) as [<- <-].
  assert ((4 * 262144 + r) mod 2 ^ 20 = 0 * 262144 + r) as ->.
  { symmetry. apply Z.mod_unique_pos with (q := 1);
      change (2 ^ 20) with 1048576; lia. }
  apply sums_quadrant; lia.
Qed.

(** [sine] is symmetric about the quarter turn: over the first half turn
    the result at [2^19 - v] is the result at [v], bit for bit. *)
Theorem sine_reflection (v : Z) :
  0 <= v <= 2 ^ 19 -> sine (2 ^ 19 - v) = sine v.
Proof.
  intros Hv. change (2 ^ 19) with 524288 in *.
  unfold sine. f_equal.
  assert (v = 524288 \/ v = 0 \/ v = 262144 \/
          0 < v < 262144 \/ 262144 < v < 524288) as Hc by lia.
  destruct Hc as [-> | [-> | [-> | [Hc | Hc]]]]; try reflexivity.
  - destruct (sums_quadrant 1 (262144 - v)) as [E1 _]; try lia.
    destruct (sums_quadrant 0 v) as [E0 _]; try lia.
    replace (1 * 262144 + (262144 - v)) with (524288 - v) in E1 by lia.
    replace (0 * 262144 + v) with v in E0 by lia.
    rewrite E0, E1.
    cbv beta iota delta [sine_quadrant].
    destruct (Z.eqb_spec (262144 - v) 0); [lia |].
    f_equal. lia.
  - destruct (sums_quadrant 0 (524288 - v)) as [E0 _]; try lia.
    destruct (sums_quadrant 1 (v - 262144)) as [E1 _]; try lia.
    replace (0 * 262144 + (524288 - v)) with (524288 - v) in E0 by lia.
    replace (1 * 262144 + (v - 262144)) with v in E1 by lia.
    rewrite E0, E1.
    cbv beta iota delta [sine_quadrant].
    destruct (Z.eqb_spec (v - 262144) 0); [lia |].
    f_equal. lia.
Qed.

Lemma sine_reflection_witness :
  0 <= 100000 <= 2 ^ 19 /\ sine (2 ^ 19 - 100000) = sine 100000.
Proof.
  split; [vm_compute; split; discriminate |].
  apply (sine_reflection 100000).
  vm_compute; split; discriminate.
Defined.

(** [cosine] is even: the result at [2^20 - v] is the result at [v], bit
    for bit. *)
Theorem cosine_even (v : Z) :
  0 <= v <= 2 ^ 20 -> cosine (2 ^ 20 - v) = cosine v.
Proof.
  intros Hv. change (2 ^ 20) with 1048576 in *.
  unfold cosine. f_equal.
  assert (v = 0 \/ v = 1048576 \/ 0 < v < 1048576) as Hc by lia.
  destruct Hc as [-> | [-> | Hc]]; try reflexivity.
  destruct (split_quadrant v) as (q & r & -> & Hq & Hr);
    [change (2 ^ 20) with 1048576; lia |].
  destruct (sums_quadrant q r Hq Hr) as [_ ->].
  assert (r = 0 \/ 0 < r) as [-> | Hpos] by lia.
  - replace (1048576 - (q * 262144 + 0)) with ((4 - q) * 262144 + 0) by lia.
    destruct (sums_quadrant (4 - q) 0) as [_ ->]; try lia.
    assert (q = 1 \/ q = 2 \/ q = 3) as Hq' by lia.
    destruct Hq' as [-> | [-> | ->]]; reflexivity.
  - replace (1048576 - (q * 262144 + r))
      with ((3 - q) * 262144 + (262144 - r)) by lia.
    destruct (sums_quadrant (3 - q) (262144 - r)) as [_ ->]; try lia.
    assert ((r =? 0) = false) as E by (apply Z.eqb_neq; lia).
    assert ((262144 - r =? 0) = false) as E' by (apply Z.eqb_neq; lia).
    replace (262144 - (262144 - r)) with r by lia.
    assert (q = 0 \/ q = 1 \/ q = 2 \/ q = 3) as Hq' by lia.
    destruct Hq' as [-> | [-> | [-> | ->]]];
      cbv beta iota delta [cosine_quadrant];
      [ change (3 - 0) with 3 | change (3 - 1) with 2
      | change (3 - 2) with 1 | change (3 - 3) with 0 ];
      cbv beta iota; rewrite ?E, ?E';
      replace (262144 - (262144 - r)) with r by lia; reflexivity.
Qed.

Lemma cosine_even_witness :
  0 <= 100000 <= 2 ^ 20 /\ cosine (2 ^ 20 - 100000) = cosine 100000.
Proof.
  split; [vm_compute; split; discriminate |].
  apply (cosine_even 100000).
  vm_compute; split; discriminate.
Defined.

End Symmetry.

Section Neighbours.

(** The results at [q * 2^18 + r] for [q] up to [4]. *)
Lemma results_wrapped q r :
  0 <= q <= 4 -> 0 <= r <= 262143 ->
  sine (q * 262144 + r) = Ret (Z.min (sine_quadrant (q mod 4) r) 131071) /\
  cosine (q * 262144 + r) =
  Ret (Z.min (cosine_quadrant (q mod 4) r) 131071).
Proof.
  intros Hq Hr.
  assert (q = 4 \/ q <= 3) as [-> | Hq3] by lia.
  - change (4 mod 4) with 0.
    destruct (sums_full_turn r Hr) as [Es Ec].
    destruct (quadrant_range 0 r ltac:(lia) Hr) as [Bs Bc].
    rewrite sine_eq, cosine_eq, Es, Ec.
    rewrite !saturate18_min by lia. auto.
  - rewrite Z.mod_small by lia. apply results_quadrant; lia.
Qed.

Lemma poly_at_ends :
  sine_poly 0 = 0 /\ cosine_poly 0 = 131072 /\
  sine_poly 1 = 0 /\ cosine_poly 1 = 131072 /\
  sine_poly 262143 = 131071 /\ cosine_poly 262143 = 1.
Proof. repeat split. Qed.

(** A quarter turn of phase: [sine] at [v + 2^18] and [cosine] at [v]
    differ by at most 2, although they come from two different
    polynomials. *)
Theorem sine_cosine_phase (v : Z) :
  0 <= v < 2 ^ 20 ->
  exists s c,
    sine (v + 2 ^ 18) = Ret s /\ cosine v = Ret c /\ -2 <= s - c <= 2.
Proof.
  intros Hv. destruct (split_quadrant v Hv) as (q & r & -> & Hq & Hr).
  change (2 ^ 18) with 262144.
  replace (q * 262144 + r + 262144) with ((q + 1) * 262144 + r) by lia.
  destruct (results_wrapped (q + 1) r ltac:(lia) Hr) as [-> _].
  destruct (results_quadrant q r Hq Hr) as [_ ->].
  eexists. eexists. split; [reflexivity |]. split; [reflexivity |].
  destruct poly_at_ends as (S0 & C0 & _).
  pose proof (poly_bounds r Hr) as Br.
  assert (q = 0 \/ q = 1 \/ q = 2 \/ q = 3) as Hc by lia.
  assert (r = 0 \/ 0 < r) as [-> | Hpos] by lia.
  - destruct Hc as [-> | [-> | [-> | ->]]];
      [ change ((0 + 1) mod 4) with 1 | change ((1 + 1) mod 4) with 2
      | change ((2 + 1) mod 4) with 3 | change ((3 + 1) mod 4) with 0 ];
      cbv beta iota delta [sine_quadrant cosine_quadrant];
      rewrite ?Z.eqb_refl, ?S0, ?C0; lia.
  - pose proof (poly_bounds (262144 - r) ltac:(lia)) as Bm.
    pose proof (poly_phase r ltac:(lia)) as Pr.
    pose proof (poly_phase (262144 - r) ltac:(lia)) as Pm.
    replace (262144 - (262144 - r)) with r in Pm by lia.
    assert ((r =? 0) = false) as E by (apply Z.eqb_neq; lia).
    destruct Hc as [-> | [-> | [-> | ->]]];
      [ change ((0 + 1) mod 4) with 1 | change ((1 + 1) mod 4) with 2
      | change ((2 + 1) mod 4) with 3 | change ((3 + 1) mod 4) with 0 ];
      cbv beta iota delta [sine_quadrant cosine_quadrant];
      rewrite ?E; lia.
Qed.

Lemma sine_cosine_phase_witness :
  0 <= 900000 < 2 ^ 20 /\
  exists s c,
    sine (900000 + 2 ^ 18) = Ret s /\ cosine 900000 = Ret c /\
    -2 <= s - c <= 2.
Proof.
  split; [vm_compute; split; [discriminate | reflexivity] |].
  apply (sine_cosine_phase 900000).
  vm_compute; split; [discriminate | reflexivity].
Defined.

(** From one argument to the next the results of [sine] and of [cosine]
    move by at most 2, also across the quadrant boundaries, where the
    [one] and [zero] overrides apply, and from [2^20 - 1] to [2^20]. *)
Theorem sincos_step (v : Z) :
  0 <= v < 2 ^ 20 ->
  exists s s' c c',
    sine v = Ret s /\ sine (v + 1) = Ret s' /\
    cosine v = Ret c /\ cosine (v + 1) = Ret c' /\
    -2 <= s' - s <= 2 /\ -2 <= c' - c <= 2.
Proof.
  intros Hv. destruct (split_quadrant v Hv) as (q & r & -> & Hq & Hr).
  destruct (results_quadrant q r Hq Hr) as [Es Ec].
  destruct poly_at_ends as (S0 & C0 & S1 & C1 & SN & CN).
  assert (q = 0 \/ q = 1 \/ q = 2 \/ q = 3) as Hc by lia.
  assert (r = 262143 \/ r = 0 \/ 0 < r < 262143) as Hcr by lia.
  destruct Hcr as [-> | [-> | Hr']].
  - replace (q * 262144 + 262143 + 1) with ((q + 1) * 262144 + 0) by lia.
    destruct (results_wrapped (q + 1) 0 ltac:(lia) ltac:(lia)) as [Es' Ec'].
    rewrite Es, Es', Ec, Ec'.
    do 4 eexists. do 4 (split; [reflexivity |]).
    destruct Hc as [-> | [-> | [-> | ->]]];
      [ change ((0 + 1) mod 4) with 1 | change ((1 + 1) mod 4) with 2
      | change ((2 + 1) mod 4) with 3 | change ((3 + 1) mod 4) with 0 ];
      cbv beta iota delta [sine_quadrant cosine_quadrant];
      change (262143 =? 0) with false; change (0 =? 0) with true;
      cbv beta iota;
      change (262144 - 262143) with 1;
      rewrite ?S0, ?C0, ?S1, ?C1, ?SN, ?CN; lia.
  - replace (q * 262144 + 0 + 1) with (q * 262144 + 1) by lia.
    destruct (results_quadrant q 1 Hq ltac:(lia)) as [Es' Ec'].
    rewrite Es, Es', Ec, Ec'.
    do 4 eexists. do 4 (split; [reflexivity |]).
    destruct Hc as [-> | [-> | [-> | ->]]];
      cbv beta iota delta [sine_quadrant cosine_quadrant];
      change (1 =? 0) with false; change (0 =? 0) with true;
      cbv beta iota;
      change (262144 - 1) with 262143;
      rewrite ?S0, ?C0, ?S1, ?C1, ?SN, ?CN; lia.
  - replace (q * 262144 + r + 1) with (q * 262144 + (r + 1)) by lia.
    destruct (results_quadrant q (r + 1) Hq ltac:(lia)) as [Es' Ec'].
    rewrite Es, Es', Ec, Ec'.
    do 4 eexists. do 4 (split; [reflexivity |]).
    pose proof (poly_bounds r Hr) as B0.
    pose proof (poly_bounds (r + 1) ltac:(lia)) as B1.
    pose proof (poly_bounds (262144 - r) ltac:(lia)) as B2.
    pose proof (poly_bounds (262144 - (r + 1)) ltac:(lia)) as B3.
    pose proof (poly_step r ltac:(lia)) as T0.
    pose proof (poly_step (262144 - (r + 1)) ltac:(lia)) as T1.
    replace (262144 - (r + 1) + 1) with (262144 - r) in T1 by lia.
    assert ((r =? 0) = false) as E by (apply Z.eqb_neq; lia).
    assert ((r + 1 =? 0) = false) as E' by (apply Z.eqb_neq; lia).
    destruct Hc as [-> | [-> | [-> | ->]]];
      cbv beta iota delta [sine_quadrant cosine_quadrant];
      rewrite ?E, ?E'; lia.
Qed.

Lemma sincos_step_witness :
  0 <= 262143 < 2 ^ 20 /\
  exists s s' c c',
    sine 262143 = Ret s /\ sine (262143 + 1) = Ret s' /\
    cosine 262143 = Ret c /\ cosine (262143 + 1) = Ret c' /\
    -2 <= s' - s <= 2 /\ -2 <= c' - c <= 2.
Proof.
  split; [vm_compute; split; [discriminate | reflexivity] |].
  apply (sincos_step 262143).
  vm_compute; split; [discriminate | reflexivity].
Defined.

End Neighbours.

(** * The two conversions *)

Section Conversions.

(** Truncation toward zero does not depend on the representation of the
    rational. *)
Lemma truncate_Qeq (y y' : Q) :
  (y == y')%Q ->
  Z.quot (Qnum y) (Zpos (Qden y)) = Z.quot (Qnum y') (Zpos (Qden y')).
Proof.
  unfold Qeq. intros H.
  rewrite <- (Z.quot_mul_cancel_r (Qnum y) (Zpos (Qden y)) (Zpos (Qden y')))
    by lia.
  rewrite H.
  rewrite (Z.mul_comm (Zpos (Qden y)) (Zpos (Qden y'))).
  apply Z.quot_mul_cancel_r; lia.
Qed.

(** Converting a fixed-point value to floating point and back returns it
    when it is non-negative, and the next integer when it is negative:
    adding [0.5] before a truncation toward zero rounds to nearest on the
    non-negative side only. *)
Theorem float_to_fixed_of_fixed (v scale : Z) :
  - 2 ^ 52 < v < 2 ^ 52 -> 0 <= scale <= 62 ->
  float_to_fixed (fixed_to_float v scale) scale =
  if v <? 0 then v + 1 else v.
Proof.
  intros _ Hs. unfold float_to_fixed, fixed_to_float. cbv zeta.
  rewrite Z.shiftl_1_l.
  assert (0 < 2 ^ scale) as Hp by (apply Z.pow_pos_nonneg; lia).
  rewrite (truncate_Qeq _ ((2 * v + 1) # 2)).
  - cbn [Qnum Qden].
    destruct (Z.ltb_spec v 0); Z.quot_rem_to_equations; lia.
  - assert (~ (inject_Z (2 ^ scale) == 0)%Q) as Hnz.
    { unfold Qeq, inject_Z. cbn [Qnum Qden]. lia. }
    setoid_replace ((2 * v + 1) # 2)%Q with (inject_Z v + (1 # 2))%Q
      by (unfold Qeq, Qplus, inject_Z; cbn [Qnum Qden]; lia).
    field. exact Hnz.
Qed.

Lemma float_to_fixed_of_fixed_witness :
  - 2 ^ 52 < -131072 < 2 ^ 52 /\ 0 <= 17 <= 62 /\
  float_to_fixed (fixed_to_float (-131072) 17) 17 = -131071.
Proof.
  assert (- 2 ^ 52 < -131072 < 2 ^ 52) as Hv
      by (vm_compute; split; reflexivity).
  assert (0 <= 17 <= 62) as Hs by (vm_compute; split; discriminate).
  split; [exact Hv |]. split; [exact Hs |].
  exact (float_to_fixed_of_fixed (-131072) 17 Hv Hs).
Defined.

End Conversions.
